(** * newsecurity: the ingestion pipeline and its de-duplicating store

    A shallow embedding of [database.py] and [feed_parser.py], with the
    refresh of [scheduler.py] and the two routes of [main.py] that
    call them.

    - Python [str] values are lists of Unicode code points, so that
      [len], slicing and [in] count what Python counts.
    - The [news_items] table is the list of its rows in insertion order;
      the statements sent to SQLite are functions on that list, run in a
      small state monad that also keeps a journal of every access.
    - The sources file, the network, the feed parser, the date parser,
      [str.lower] and the clock are the environment of the feed
      parser: they are section variables. *)

From Stdlib Require Import String Ascii.
From Stdlib Require Import List ZArith NArith Bool Lia Permutation Sorted.
Import ListNotations.

(** ** Python text *)

Definition str := list N.

(** An ASCII literal as a [str]. *)
Definition py (s : string) : str := map N_of_ascii (list_ascii_of_string s).
Arguments py s%_string.

Fixpoint str_eqb (a b : str) : bool :=
  match a, b with
  | [], [] => true
  | x :: a', y :: b' => N.eqb x y && str_eqb a' b'
  | _, _ => false
  end.

(** Python truthiness of a [str]: [if s] / [x or y]. *)
Definition truthy (s : str) : bool := negb (str_eqb s []).

(** Lexicographic comparison by code point; SQLite compares TEXT with
    memcmp on the UTF-8 encoding, which orders strings the same way. *)
Fixpoint str_compare (a b : str) : comparison :=
  match a, b with
  | [], [] => Eq
  | [], _ :: _ => Lt
  | _ :: _, [] => Gt
  | x :: a', y :: b' =>
      match N.compare x y with
      | Eq => str_compare a' b'
      | c => c
      end
  end.

(** What an awaited task or a library call ends in. *)
Inductive outcome (A : Type) :=
| Returned (a : A)
| Raised (exc : str).
Arguments Returned {A} a.
Arguments Raised {A} exc.

(** ** database.py *)

Module Database.

(** The dict [_fetch_rss] builds, and also the text columns of a row.
    The surrogate [id] column is handed out by the engine and is read
    by nothing below; it is left out, the list order of the table
    standing for rowid order. *)
Record NewsItem := mkItem {
  title : str;
  url : str;
  summary : str;
  published_at : str;
  source_name : str;
  category : str;
  fetched_at : str
}.

Inductive access :=
| Connect
| SelectCount
| InsertOnConflict (u : str)
| Commit
| SelectPage (limit offset : Z).

Record db := mkDb {
  news_items : list NewsItem;
  journal : list access
}.

Definition empty_db : db := mkDb [] [].

(** Storage actions: state passing over [db]. *)
Definition DB (A : Type) := db -> A * db.

Definition ret {A} (a : A) : DB A := fun s => (a, s).
Definition bind {A B} (m : DB A) (k : A -> DB B) : DB B :=
  fun s => let (a, s') := m s in k a s'.

Notation "x <- m ;; k" := (bind m (fun x => k))
  (at level 61, m at next level, right associativity).
Notation "m ;;; k" := (bind m (fun _ => k))
  (at level 61, right associativity).

Definition record (e : access) : DB unit :=
  fun s => (tt, mkDb (news_items s) (journal s ++ [e])).

Definition connect : DB unit := record Connect.
Definition commit : DB unit := record Commit.

(** [SELECT COUNT( * ) FROM news_items] *)
Definition select_count : DB Z :=
  record SelectCount ;;;
  fun s => (Z.of_nat (length (news_items s)), s).

(** [ON CONFLICT(url) DO UPDATE SET summary = CASE ..., fetched_at =
    excluded.fetched_at]: the stored row after the update. *)
Definition do_update (stored excluded : NewsItem) : NewsItem :=
  mkItem (title stored) (url stored)
         (if truthy (summary excluded) then summary excluded
          else summary stored)
         (published_at stored) (source_name stored) (category stored)
         (fetched_at excluded).

(** [INSERT INTO news_items ... VALUES ... ON CONFLICT(url) DO UPDATE]:
    the row holding the url is updated in place, and when there is none
    the values are appended as a new row. *)
Fixpoint insert_on_conflict (excluded : NewsItem) (rows : list NewsItem)
  : list NewsItem :=
  match rows with
  | [] => [excluded]
  | r :: rest =>
      if str_eqb (url r) (url excluded) then do_update r excluded :: rest
      else r :: insert_on_conflict excluded rest
  end.

(** A code point of the surrogate range: a [str] may hold one, the
    UTF-8 encoder refuses it. *)
Definition is_surrogate (c : N) : bool := ((55296 <=? c) && (c <=? 57343))%N.

(** Text that can be bound to a parameter of a statement. *)
Definition bindable (s : str) : bool := forallb (fun c => negb (is_surrogate c)) s.

Definition bindable_item (item : NewsItem) : bool :=
  bindable (title item) && bindable (url item) && bindable (summary item) &&
  bindable (published_at item) && bindable (source_name item) &&
  bindable (category item) && bindable (fetched_at item).

(** One turn of the [for item in items] loop: [try: await
    db.execute(...) except Exception: logger.error(...)].  Binding a
    text that cannot be encoded raises, and the item is skipped; with
    every parameter a string no NOT NULL constraint can fail, and a
    clash on [url] is taken by the ON CONFLICT clause.  Failures of
    the storage itself and texts beyond its length limit are not
    modelled. *)
Definition execute (item : NewsItem) : DB unit :=
  record (InsertOnConflict (url item)) ;;;
  fun s =>
    if bindable_item item then
      (tt, mkDb (insert_on_conflict item (news_items s)) (journal s))
    else (tt, s).

Fixpoint for_each (items : list NewsItem) : DB unit :=
  match items with
  | [] => ret tt
  | item :: rest => execute item ;;; for_each rest
  end.

Definition upsert_news_items (items : list NewsItem) : DB Z :=
  match items with
  | [] => ret 0%Z
  | _ =>
      connect ;;;
      count_before <- select_count ;;
      for_each items ;;;
      commit ;;;
      count_after <- select_count ;;
      ret (count_after - count_before)%Z
  end.

(** [ORDER BY published_at DESC, fetched_at DESC]: [a] may stand before
    [b]. *)
Definition order_by (a b : NewsItem) : bool :=
  match str_compare (published_at a) (published_at b) with
  | Gt => true
  | Lt => false
  | Eq =>
      match str_compare (fetched_at a) (fetched_at b) with
      | Lt => false
      | _ => true
      end
  end.

Fixpoint place (r : NewsItem) (sorted : list NewsItem) : list NewsItem :=
  match sorted with
  | [] => [r]
  | x :: rest => if order_by r x then r :: x :: rest else x :: place r rest
  end.

(** The rows in the order of the ORDER BY clause; rows that agree on
    both keys, which SQL leaves in any order, stay in table order. *)
Definition ordered (rows : list NewsItem) : list NewsItem :=
  fold_right place [] rows.

(** A Python [int] that fits an SQLite INTEGER (64 bits, signed);
    binding any other raises OverflowError. *)
Definition fits_int64 (v : Z) : bool :=
  ((- 9223372036854775808 <=? v) && (v <=? 9223372036854775807))%Z.

(** [LIMIT ? OFFSET ?] on bound values as SQLite reads them: a
    negative offset counts as 0 and a negative limit as no limit. *)
Definition limit_offset (limit offset : Z) (rows : list NewsItem)
  : list NewsItem :=
  let rest := skipn (Z.to_nat offset) rows in
  if (limit <? 0)%Z then rest else firstn (Z.to_nat limit) rest.

(** The connection is open when the parameters are bound: a limit or
    offset that does not fit raises from [db.execute]. *)
Definition get_news (limit offset : Z) : DB (outcome (list NewsItem)) :=
  connect ;;;
  if fits_int64 limit && fits_int64 offset then
    record (SelectPage limit offset) ;;;
    fun s => (Returned (limit_offset limit offset (ordered (news_items s))), s)
  else ret (Raised (py "OverflowError")).

Definition get_total_count : DB Z :=
  connect ;;;
  select_count.

End Database.

(** ** main.py: the read boundary *)

Module Main.
Import Database.

Record page := mkPage {
  total : Z;
  limit : Z;
  offset : Z;
  items : list NewsItem
}.

(** [GET /api/news]; [Query(ge=1, le=500)] and [Query(ge=0)] turn a
    request outside the bounds down before the handler runs ([None]);
    an exception of [get_news] leaves the handler. *)
Definition api_news (limit offset : Z) : DB (option (outcome page)) :=
  if ((1 <=? limit) && (limit <=? 500) && (0 <=? offset))%Z then
    got <- get_news limit offset ;;
    match got with
    | Raised exc => ret (Some (Raised exc))
    | Returned items =>
        total <- get_total_count ;;
        ret (Some (Returned (mkPage total limit offset items)))
    end
  else ret None.

End Main.

(** ** feed_parser.py *)

(** A feedparser entry, read through [entry.get(key)]. *)
Module Entry.
Record t := mk {
  link : option str;
  id : option str;
  title : option str;
  summary : option str;
  description : option str;
  published : option str;
  updated : option str;
  created : option str
}.
End Entry.

(** One element of [sources] in sources.yaml; [name] and [url] are
    read with [source[...]], which raises KeyError on a descriptor
    without the key ([None]), the others with [source.get]. *)
Module Source.
Record t := mk {
  name : option str;
  url : option str;
  category : option str;
  filter_keyword : option str;
  type : option str;
  scraper_module : option str
}.
End Source.

Module FeedParser.
Import Database.

(** *** [str] methods *)

(** The code points [str.isspace] accepts. *)
Definition isspace (c : N) : bool :=
  existsb (N.eqb c)
    [9; 10; 11; 12; 13; 28; 29; 30; 31; 32; 133; 160; 5760;
     8192; 8193; 8194; 8195; 8196; 8197; 8198; 8199; 8200; 8201; 8202;
     8232; 8233; 8239; 8287; 12288]%N.

Fixpoint lstrip (s : str) : str :=
  match s with
  | [] => []
  | c :: r => if isspace c then lstrip r else s
  end.

Definition rstrip (s : str) : str := rev (lstrip (rev s)).

Definition strip (s : str) : str := rstrip (lstrip s).

Fixpoint startswith (prefix s : str) : bool :=
  match prefix, s with
  | [], _ => true
  | _ :: _, [] => false
  | a :: prefix', b :: s' => N.eqb a b && startswith prefix' s'
  end.

(** [needle in hay] *)
Fixpoint contains (needle hay : str) : bool :=
  startswith needle hay ||
  match hay with
  | [] => false
  | _ :: rest => contains needle rest
  end.

(** [x or y] on what [dict.get] hands back. *)
Definition py_or (x y : option str) : option str :=
  match x with
  | Some s => if truthy s then x else y
  | None => y
  end.

(** [x or ""] and [d.get(key, default)]. *)
Definition or_str (x : option str) (default : str) : str :=
  match x with
  | Some s => if truthy s then s else default
  | None => default
  end.

Definition get_default (x : option str) (default : str) : str :=
  match x with
  | Some s => s
  | None => default
  end.

(** *** [datetime] *)

(** [tzinfo] is the offset from UTC in seconds, [None] for a naive
    value.  The fields are within the ranges [datetime] allows. *)
Record datetime := mkDatetime {
  year : N;
  month : N;
  day : N;
  hour : N;
  minute : N;
  second : N;
  microsecond : N;
  tzinfo : option Z
}.

(** [dt.replace(tzinfo=timezone.utc)] *)
Definition replace_tzinfo_utc (dt : datetime) : datetime :=
  mkDatetime (year dt) (month dt) (day dt) (hour dt) (minute dt) (second dt)
             (microsecond dt) (Some 0%Z).

Definition digit (n : N) : N := (48 + n mod 10)%N.

Definition zfill2 (n : N) : str := [digit (n / 10); digit n].
Definition zfill4 (n : N) : str :=
  [digit (n / 1000); digit (n / 100); digit (n / 10); digit n].
Definition zfill6 (n : N) : str :=
  [digit (n / 100000); digit (n / 10000); digit (n / 1000);
   digit (n / 100); digit (n / 10); digit n].

Definition format_offset (off : Z) : str :=
  let sign := if (off <? 0)%Z then 45%N else 43%N in
  let a := Z.to_N (Z.abs off) in
  let hh := (a / 3600)%N in
  let mm := ((a mod 3600) / 60)%N in
  let ss := (a mod 60)%N in
  sign :: zfill2 hh ++ [58%N] ++ zfill2 mm ++
  (if (ss =? 0)%N then [] else 58%N :: zfill2 ss).

(** [dt.isoformat()]: date and time, then the offset of an aware value. *)
Definition isoformat (dt : datetime) : str :=
  (zfill4 (year dt) ++ [45%N] ++ zfill2 (month dt) ++ [45%N] ++
   zfill2 (day dt) ++ [84%N] ++
   zfill2 (hour dt) ++ [58%N] ++ zfill2 (minute dt) ++ [58%N] ++
   zfill2 (second dt) ++
   (if (microsecond dt =? 0)%N then [] else 46%N :: zfill6 (microsecond dt)))
  ++
  match tzinfo dt with
  | None => []
  | Some off => format_offset off
  end.

(** *** [re.sub(r"<[^>]+>", "", text)] *)

Definition LT_SIGN : N := 60.
Definition GT_SIGN : N := 62.

(** After a '<': the pattern goes on to match exactly when the next
    code point is not '>' and a '>' comes later. *)
Definition tag_opens (rest : str) : bool :=
  match rest with
  | [] => false
  | c :: r => negb (N.eqb c GT_SIGN) && existsb (N.eqb GT_SIGN) r
  end.

(** The scan from left to right; [in_tag] while the code points of a
    match are being dropped. *)
Fixpoint re_sub_tags_from (in_tag : bool) (s : str) : str :=
  match s with
  | [] => []
  | c :: r =>
      if in_tag then
        if N.eqb c GT_SIGN then re_sub_tags_from false r
        else re_sub_tags_from true r
      else if N.eqb c LT_SIGN && tag_opens r then re_sub_tags_from true r
      else c :: re_sub_tags_from false r
  end.

Definition re_sub_tags (text : str) : str := re_sub_tags_from false text.

Definition ELLIPSIS : str := [8230%N].

Definition _clean_summary (text : option str) (max_len : nat) : str :=
  match text with
  | None => []
  | Some raw =>
      if negb (truthy raw) then []
      else
        let text := strip (re_sub_tags raw) in
        firstn max_len text ++
        (if (max_len <? length text)%nat then ELLIPSIS else [])
  end.

(** "(제목 없음)" *)
Definition NO_TITLE : str := [40; 51228; 47785; 32; 50630; 51020; 41]%N.

(** [entry.get("link") or entry.get("id") or ""] *)
Definition item_url_of (entry : Entry.t) : str :=
  or_str (py_or (Entry.link entry) (Entry.id entry)) [].

(** [entry.get("title", "(제목 없음)").strip()] *)
Definition title_of (entry : Entry.t) : str :=
  strip (get_default (Entry.title entry) NO_TITLE).

(** [_clean_summary(entry.get("summary") or entry.get("description")
    or "")] *)
Definition summary_of (entry : Entry.t) : str :=
  _clean_summary
    (Some (or_str (py_or (Entry.summary entry) (Entry.description entry)) []))
    300.

Record parsed := mkParsed {
  bozo : bool;
  entries : list Entry.t
}.

(** What [yaml.safe_load] made of sources.yaml: an empty document, or
    a mapping with or without the key [sources]. *)
Inductive yaml :=
| YamlNone
| YamlMapping (sources : option (list Source.t)).

Section Environment.

(** [open(SOURCES_PATH)] and [yaml.safe_load(f)]; [Raised] when the
    file is missing or is not YAML. *)
Variable read_sources_file : outcome yaml.

(** [client.get(url)] followed by [raise_for_status()]: the body, or
    [None] when anything inside the [try] raised. *)
Variable http_get : str -> option (list Byte.byte).

(** [feedparser.parse]; a malformed body is reported through [bozo]. *)
Variable feedparser_parse : list Byte.byte -> outcome parsed.

(** [dateutil_parser.parse]; [None] when it raises. *)
Variable dateutil_parse : str -> option datetime.

(** [str.lower] *)
Variable str_lower : str -> str.

(** [data.get("sources", [])]; an empty document has no [get]. *)
Definition _load_sources : outcome (list Source.t) :=
  match read_sources_file with
  | Raised exc => Raised exc
  | Returned YamlNone => Raised (py "AttributeError")
  | Returned (YamlMapping None) => Returned []
  | Returned (YamlMapping (Some sources)) => Returned sources
  end.

(** [(title + " " + summary).lower()] *)
Definition content_to_check (title summary : str) : str :=
  str_lower (title ++ py " " ++ summary).

(** [datetime.now(timezone.utc)], from a reading of the clock. *)
Definition utcnow (reading : datetime) : datetime := replace_tzinfo_utc reading.

Definition _normalize_date (now : datetime) (raw : option str) : str :=
  match raw with
  | None => isoformat (utcnow now)
  | Some r =>
      if negb (truthy r) then isoformat (utcnow now)
      else
        match dateutil_parse r with
        | Some dt =>
            isoformat (match tzinfo dt with
                       | None => replace_tzinfo_utc dt
                       | Some _ => dt
                       end)
        | None => isoformat (utcnow now)
        end
  end.

(** [entry.get("published") or entry.get("updated") or
    entry.get("created")] *)
Definition raw_date (entry : Entry.t) : option str :=
  py_or (py_or (Entry.published entry) (Entry.updated entry))
        (Entry.created entry).

(** The body of [for entry in feed.entries]; [None] is [continue]. *)
Definition normalize_entry (name category fetched_at filter_keyword : str)
    (now : datetime) (entry : Entry.t) : option NewsItem :=
  let item_url := item_url_of entry in
  if negb (truthy item_url) then None
  else
    let title := title_of entry in
    let summary := summary_of entry in
    if truthy filter_keyword &&
       negb (contains filter_keyword (content_to_check title summary))
    then None
    else
      Some (mkItem title item_url summary
                   (_normalize_date now (raw_date entry))
                   name category fetched_at).

(** The loop; [clock k] is the reading of the clock while entry [k] of
    the feed is handled. *)
Fixpoint normalize_entries (name category fetched_at filter_keyword : str)
    (clock : nat -> datetime) (k : nat) (entries : list Entry.t)
  : list NewsItem :=
  match entries with
  | [] => []
  | entry :: rest =>
      match normalize_entry name category fetched_at filter_keyword
                            (clock k) entry with
      | Some item =>
          item :: normalize_entries name category fetched_at filter_keyword
                                    clock (S k) rest
      | None =>
          normalize_entries name category fetched_at filter_keyword
                            clock (S k) rest
      end
  end.

(** [start] is the reading of the clock when the task begins.  The
    two [source[...]] come before the [try]. *)
Definition _fetch_rss (start : datetime) (clock : nat -> datetime)
    (source : Source.t) : outcome (list NewsItem) :=
  match Source.url source with
  | None => Raised (py "KeyError")
  | Some url =>
      match Source.name source with
      | None => Raised (py "KeyError")
      | Some name =>
          let category := get_default (Source.category source) [] in
          let fetched_at := isoformat (utcnow start) in
          match http_get url with
          | None => Returned []
          | Some raw_content =>
              match feedparser_parse raw_content with
              | Raised exc => Raised exc
              | Returned feed =>
                  if bozo feed && (length (entries feed) =? 0)%nat
                  then Returned []
                  else
                    let filter_keyword :=
                      str_lower
                        (get_default (Source.filter_keyword source) []) in
                    Returned (normalize_entries name category fetched_at
                                filter_keyword clock 0 (entries feed))
              end
          end
      end
  end.

(** [asyncio.gather( *tasks, return_exceptions=...)] over tasks that
    have run to their end: with [return_exceptions] each slot holds a
    result or an exception, without it the first exception is raised. *)
Fixpoint first_raised {A} (results : list (outcome A)) : option str :=
  match results with
  | [] => None
  | Raised exc :: _ => Some exc
  | Returned _ :: rest => first_raised rest
  end.

Definition gather {A} (return_exceptions : bool) (tasks : list (outcome A))
  : outcome (list (outcome A)) :=
  if return_exceptions then Returned tasks
  else
    match first_raised tasks with
    | Some exc => Raised exc
    | None => Returned tasks
    end.

(** The clock readings of the task of the source at position [i]. *)
Record readings := mkReadings {
  at_start : datetime;
  at_entry : nat -> datetime
}.

(** [for source in sources]: the task list.  The two warning
    branches only log, and their message reads [source['name']]: on a
    descriptor without a name the loop, and with it [fetch_all_feeds],
    raises. *)
Fixpoint make_tasks (clocks : nat -> readings) (i : nat)
    (sources : list Source.t) : outcome (list (outcome (list NewsItem))) :=
  match sources with
  | [] => Returned []
  | source :: rest =>
      let src_type := get_default (Source.type source) (py "rss") in
      if str_eqb src_type (py "rss") then
        match make_tasks clocks (S i) rest with
        | Raised exc => Raised exc
        | Returned tasks =>
            Returned (_fetch_rss (at_start (clocks i)) (at_entry (clocks i))
                                 source :: tasks)
        end
      else if str_eqb src_type (py "scraper") then
        match Source.name source with
        | None => Raised (py "KeyError")
        | Some _ => make_tasks clocks (S i) rest
        end
      else
        match Source.name source with
        | None => Raised (py "KeyError")
        | Some _ => make_tasks clocks (S i) rest
        end
  end.

(** [for result in results] *)
Fixpoint extend_all (results : list (outcome (list NewsItem)))
  : list NewsItem :=
  match results with
  | [] => []
  | Raised _ :: rest => extend_all rest
  | Returned items :: rest => items ++ extend_all rest
  end.

Definition fetch_all_feeds (clocks : nat -> readings)
  : outcome (list NewsItem) :=
  match _load_sources with
  | Raised exc => Raised exc
  | Returned sources =>
      match make_tasks clocks 0 sources with
      | Raised exc => Raised exc
      | Returned tasks =>
          match gather true tasks with
          | Raised exc => Raised exc
          | Returned results => Returned (extend_all results)
          end
      end
  end.

End Environment.

End FeedParser.

(** ** Reading the store *)

Import Database.

(** The stored record of a url. *)
Definition find_url (u : str) (rows : list NewsItem) : option NewsItem :=
  find (fun r => str_eqb (url r) u) rows.

(** The items of a batch whose statement runs; the others are skipped. *)
Definition written (items : list NewsItem) : list NewsItem :=
  filter bindable_item items.

(** The table after the statements of a batch, in input order. *)
Definition apply_items (items rows : list NewsItem) : list NewsItem :=
  fold_left (fun rows item => insert_on_conflict item rows) items rows.

(** A sequence of calls of [upsert_news_items], one batch each. *)
Definition run_calls (calls : list (list NewsItem)) (s : db) : db :=
  fold_left (fun s batch => snd (upsert_news_items batch s)) calls s.

(** The items of a batch that carry the url [u]. *)
Definition supplied (u : str) (items : list NewsItem) : list NewsItem :=
  filter (fun item => str_eqb (url item) u) items.

Definition last_error {A} (l : list A) : option A := hd_error (rev l).

(** What the statement of [item] makes of the record of its url. *)
Definition merge_one (stored : option NewsItem) (item : NewsItem)
  : option NewsItem :=
  Some (match stored with
        | Some r => do_update r item
        | None => item
        end).

Definition first_nonempty (l : list str) : option str := find truthy l.
Definition last_nonempty (l : list str) : option str := find truthy (rev l).

(** The summary a url ends with: the last non-empty one supplied, and
    when none was, the one stored before (the empty one for a new url). *)
Definition merged_summary (before : option NewsItem) (items : list NewsItem)
  : str :=
  match last_nonempty (map summary items) with
  | Some s => s
  | None =>
      match before with
      | Some r => summary r
      | None => []
      end
  end.

(** The merge law with the words "first non-empty summary": every call
    supplies the url, the stored summary is the first non-empty one
    supplied and [fetched_at] that of the most recent call. *)
Definition first_nonempty_summary_law (s0 : db) (u : str)
    (calls : list (list NewsItem)) : Prop :=
  calls <> [] ->
  Forall (fun batch => supplied u batch <> []) calls ->
  exists R,
    find_url u (news_items (run_calls calls s0)) = Some R /\
    (forall first,
        first_nonempty (map summary (supplied u (concat calls))) = Some first ->
        summary R = first) /\
    (exists I, last_error (supplied u (last calls [])) = Some I /\
               fetched_at R = fetched_at I).

(** [a] stands before [b] under published_at descending, fetched_at
    descending on a tie. *)
Definition desc_before (a b : NewsItem) : Prop :=
  str_compare (published_at a) (published_at b) = Gt \/
  (published_at a = published_at b /\
   str_compare (fetched_at a) (fetched_at b) <> Lt).

(** Sample records. *)
Module Sample.

Definition item (u s f : string) : NewsItem :=
  mkItem (py "Patch Tuesday") (py u) (py s) (py "2024-01-01T00:00:00+00:00")
         (py "KrCERT") (py "advisory") (py f).

Definition dated (u p f : string) : NewsItem :=
  mkItem (py "t") (py u) (py "") (py p) (py "src") (py "") (py f).

Definition first_write : NewsItem :=
  item "https://a.example/1" "first text" "2024-01-02T00:00:00+00:00".
Definition second_write : NewsItem :=
  mkItem (py "Other title") (py "https://a.example/1") (py "second text")
         (py "2025-05-05T00:00:00+00:00") (py "Other") (py "misc")
         (py "2024-01-03T00:00:00+00:00").
Definition empty_write : NewsItem :=
  item "https://a.example/1" "" "2024-01-04T00:00:00+00:00".
Definition other_url : NewsItem :=
  item "https://a.example/2" "s" "2024-01-02T00:00:00+00:00".

(** A title that ends in a lone surrogate. *)
Definition unbindable : NewsItem :=
  mkItem (py "Patch" ++ [55296%N]) (py "https://a.example/3") (py "s")
         (py "2024-01-01T00:00:00+00:00") (py "KrCERT") (py "advisory")
         (py "2024-01-05T00:00:00+00:00").

Definition five : list NewsItem :=
  [dated "u1" "2024-01-03" "f1"; dated "u2" "2024-01-05" "f1";
   dated "u3" "2024-01-01" "f1"; dated "u4" "2024-01-05" "f2";
   dated "u5" "2024-01-02" "f1"].

End Sample.

(** ** Reading the feed *)

Import FeedParser.


(** An occurrence of the pattern [<[^>]+>]: a '<', one or more code
    points other than '>', a '>'. *)
Definition tag_match (m : str) : Prop :=
  exists body, m = LT_SIGN :: body ++ [GT_SIGN] /\
               body <> [] /\ ~ In GT_SIGN body.

Definition has_tag (s : str) : Prop :=
  exists pre m post, s = pre ++ m ++ post /\ tag_match m.

(** The same as a check: the pattern matches at no position. *)
Fixpoint no_tag (s : str) : bool :=
  match s with
  | [] => true
  | c :: r => negb (N.eqb c LT_SIGN && tag_opens r) && no_tag r
  end.

Definition all_space (s : str) : Prop := Forall (fun c => isspace c = true) s.

(** [s] with the whitespace around it taken off is [body]. *)
Definition trimmed (s body : str) : Prop :=
  (exists l r, s = l ++ body ++ r /\ all_space l /\ all_space r) /\
  (forall c t, body = c :: t -> isspace c = false) /\
  (forall t c, body = t ++ [c] -> isspace c = false).

(** [kw] occurs in [text] up to case: once both are lowered, the
    keyword is a part of the text. *)
Definition occurs_nocase (str_lower : str -> str) (kw text : str) : Prop :=
  exists pre post, str_lower text = pre ++ str_lower kw ++ post.

(** The keyword filter with the words "the concatenation of title and
    cleaned summary". *)
Definition keyword_in_title_summary
    (dateutil_parse : str -> option datetime) (str_lower : str -> str)
    (source : Source.t) (name fetched_at : str) (now : datetime)
    (entry : Entry.t) : Prop :=
  let kw := get_default (Source.filter_keyword source) [] in
  kw <> [] ->
  truthy (item_url_of entry) = true ->
  (normalize_entry dateutil_parse str_lower name
     (get_default (Source.category source) []) fetched_at (str_lower kw)
     now entry <> None
   <-> occurs_nocase str_lower kw (title_of entry ++ summary_of entry)).

Definition is_rss (source : Source.t) : bool :=
  str_eqb (get_default (Source.type source) (py "rss")) (py "rss").

(** What the source at position [i] adds to the result. *)
Definition contribution (http_get : str -> option (list Byte.byte))
    (feedparser_parse : list Byte.byte -> outcome parsed)
    (dateutil_parse : str -> option datetime) (str_lower : str -> str)
    (clocks : nat -> readings) (i : nat) (source : Source.t)
  : list NewsItem :=
  if is_rss source then
    match _fetch_rss http_get feedparser_parse dateutil_parse str_lower
                     (at_start (clocks i)) (at_entry (clocks i)) source with
    | Returned items => items
    | Raised _ => []
    end
  else [].

Fixpoint contributions (http_get : str -> option (list Byte.byte))
    (feedparser_parse : list Byte.byte -> outcome parsed)
    (dateutil_parse : str -> option datetime) (str_lower : str -> str)
    (clocks : nat -> readings) (i : nat) (sources : list Source.t)
  : list NewsItem :=
  match sources with
  | [] => []
  | source :: rest =>
      contribution http_get feedparser_parse dateutil_parse str_lower clocks i
                   source ++
      contributions http_get feedparser_parse dateutil_parse str_lower clocks
                    (S i) rest
  end.

(** The sources the warning branches can name. *)
Definition named_unless_rss (source : Source.t) : Prop :=
  is_rss source = false -> Source.name source <> None.

(** The words "a source whose fetch or parse fails (... malformed
    body) contributes exactly zero items", for a body that the parser
    flags as malformed. *)
Definition malformed_body_gives_nothing
    (http_get : str -> option (list Byte.byte))
    (feedparser_parse : list Byte.byte -> outcome parsed)
    (dateutil_parse : str -> option datetime) (str_lower : str -> str)
    (clocks : nat -> readings) (i : nat) (source : Source.t) : Prop :=
  forall u raw feed,
    Source.url source = Some u ->
    http_get u = Some raw ->
    feedparser_parse raw = Returned feed ->
    bozo feed = true ->
    contribution http_get feedparser_parse dateutil_parse str_lower clocks i
                 source = [].

(** Sample feeds and a sample environment. *)
Module SampleFeed.

Definition entry (t s : string) (p u : option str) : Entry.t :=
  Entry.mk (Some (py "https://n.example/a")) None (Some (py t)) (Some (py s))
           None p u None.

Definition num (ds : list N) : N :=
  fold_left (fun acc d => (10 * acc + (d - 48))%N) ds 0%N.

Definition is_digit (c : N) : bool := ((48 <=? c) && (c <=? 57))%N.

(** A date parser that reads the form YYYY-MM-DDTHH:MM:SS as a naive
    value and raises on anything else. *)
Definition parse_plain (raw : str) : option datetime :=
  match raw with
  | [y1; y2; y3; y4; 45; m1; m2; 45; d1; d2; 84;
     h1; h2; 58; n1; n2; 58; s1; s2]%N =>
      if forallb is_digit [y1; y2; y3; y4; m1; m2; d1; d2;
                           h1; h2; n1; n2; s1; s2]
      then Some (mkDatetime (num [y1; y2; y3; y4]) (num [m1; m2])
                            (num [d1; d2]) (num [h1; h2]) (num [n1; n2])
                            (num [s1; s2]) 0 None)
      else None
  | _ => None
  end.

(** [str.lower] as it acts on ASCII text: the letters A-Z. *)
Definition ascii_lower (s : str) : str :=
  map (fun c => if ((65 <=? c) && (c <=? 90))%N then (c + 32)%N else c) s.

Definition noon : datetime := mkDatetime 2024 6 1 12 0 0 0 None.

Definition clocks (i : nat) : readings := mkReadings noon (fun _ => noon).

Definition body (tag : string) : list Byte.byte :=
  map byte_of_ascii (list_ascii_of_string tag).

Definition ransomware_entries : list Entry.t :=
  [entry "Ransomware attack hits hospital" "<p>Wards closed.</p>" None None;
   entry "Phishing campaign targets bank" "Customers warned." None None].

(** "feed" answers with a feed, "down" times out, "crash" makes the
    parser raise, "sloppy" gives a body the parser flags while reading
    its entries, any other address a body it flags with no entry. *)
Definition http_get (u : str) : option (list Byte.byte) :=
  if str_eqb u (py "https://down.example/rss") then None
  else if str_eqb u (py "https://feed.example/rss") then Some (body "feed")
  else if str_eqb u (py "https://crash.example/rss") then Some (body "crash")
  else if str_eqb u (py "https://sloppy.example/rss") then Some (body "sloppy")
  else Some (body "broken").

Definition feedparser_parse (raw : list Byte.byte) : outcome parsed :=
  if list_eq_dec Byte.byte_eq_dec raw (body "feed")
  then Returned (mkParsed false ransomware_entries)
  else if list_eq_dec Byte.byte_eq_dec raw (body "crash")
  then Raised (py "RecursionError")
  else if list_eq_dec Byte.byte_eq_dec raw (body "sloppy")
  then Returned (mkParsed true ransomware_entries)
  else Returned (mkParsed true []).

Definition source (u : string) (kw t : option str) : Source.t :=
  Source.mk (Some (py "Feed")) (Some (py u)) (Some (py "news")) kw t None.

(** A descriptor without the key [name]. *)
Definition nameless (u : string) (t : option str) : Source.t :=
  Source.mk None (Some (py u)) None None t None.

Definition sources_file (sources : list Source.t) : outcome yaml :=
  Returned (YamlMapping (Some sources)).

(** A timeout, a scraper, an unknown type, a parser that raises, a
    flagged body with no entry, a descriptor without a name, and the
    feed of two entries. *)
Definition mixed : list Source.t :=
  [source "https://down.example/rss" None None;
   source "https://feed.example/rss" None (Some (py "scraper"));
   source "https://feed.example/rss" None (Some (py "gopher"));
   source "https://crash.example/rss" None None;
   source "https://broken.example/rss" None None;
   nameless "https://feed.example/rss" None;
   source "https://feed.example/rss" None (Some (py "rss"))].

Definition straddle : Entry.t :=
  entry "Inside the dark" "web markets" None None.

End SampleFeed.

(** ** scheduler.py and the refresh endpoint *)

Module Scheduler.

Record refresh := mkRefresh {
  status : str;
  new_items : Z;
  total_fetched : Z
}.

Section Environment.

Variable read_sources_file : outcome yaml.
Variable http_get : str -> option (list Byte.byte).
Variable feedparser_parse : list Byte.byte -> outcome parsed.
Variable dateutil_parse : str -> option datetime.
Variable str_lower : str -> str.

(** [run_refresh_now]: neither call is guarded, an exception of
    [fetch_all_feeds] passes through. *)
Definition run_refresh_now (clocks : nat -> readings)
  : DB (outcome refresh) :=
  match fetch_all_feeds read_sources_file http_get feedparser_parse
                        dateutil_parse str_lower clocks with
  | Raised exc => ret (Raised exc)
  | Returned items =>
      count <- upsert_news_items items ;;
      ret (Returned (mkRefresh (py "ok") count (Z.of_nat (length items))))
  end.

(** [_refresh_job]: the same two steps, the count only logged. *)
Definition _refresh_job (clocks : nat -> readings) : DB (outcome unit) :=
  match fetch_all_feeds read_sources_file http_get feedparser_parse
                        dateutil_parse str_lower clocks with
  | Raised exc => ret (Raised exc)
  | Returned items =>
      count <- upsert_news_items items ;;
      ret (Returned tt)
  end.

(** [POST /api/refresh] in main.py *)
Definition api_refresh (clocks : nat -> readings) : DB (outcome refresh) :=
  run_refresh_now clocks.

End Environment.

End Scheduler.

(** ** Counting and comparing *)

Definition str_eq_dec : forall a b : str, {a = b} + {a <> b} :=
  list_eq_dec N.eq_dec.

(** The distinct urls of a batch that a table does not hold. *)
Definition new_urls (items rows : list NewsItem) : list str :=
  nodup str_eq_dec
    (filter (fun u => negb (existsb (str_eqb u) (map url rows)))
            (map url items)).

(** The test of the keyword filter on an emitted item. *)
Definition item_hit (str_lower : str -> str) (filter_keyword : str)
    (item : NewsItem) : bool :=
  contains filter_keyword
           (content_to_check str_lower (title item) (summary item)).

(** An item as [_fetch_rss] of [source], started at [start], emits it. *)
Definition emitted_by (source : Source.t) (start : datetime)
    (item : NewsItem) : Prop :=
  Source.name source = Some (source_name item) /\
  category item = get_default (Source.category source) [] /\
  fetched_at item = isoformat (utcnow start) /\
  url item <> [] /\
  published_at item <> [] /\
  length (summary item) <= 301 /\
  ~ has_tag (summary item) /\
  trimmed (title item) (title item).

(** The columns that an update never writes agree. *)
Definition same_identity (r r' : NewsItem) : Prop :=
  title r' = title r /\ url r' = url r /\
  published_at r' = published_at r /\
  source_name r' = source_name r /\ category r' = category r.

(** The descriptor with its keyword taken out. *)
Definition without_keyword (source : Source.t) : Source.t :=
  Source.mk (Source.name source) (Source.url source) (Source.category source)
            None (Source.type source) (Source.scraper_module source).

(** An entry that the loop of [_fetch_rss] does not skip: it has a url
    and, under a keyword, the text tested holds the keyword. *)
Definition kept (str_lower : str -> str) (filter_keyword : str)
    (entry : Entry.t) : bool :=
  truthy (item_url_of entry) &&
  (negb (truthy filter_keyword) ||
   contains filter_keyword
            (content_to_check str_lower (title_of entry) (summary_of entry))).

(** A request that gives no item: the source has no url, or the
    request for it fails. *)
Definition request_fails (http_get : str -> option (list Byte.byte))
    (source : Source.t) : Prop :=
  match Source.url source with
  | Some u => http_get u = None
  | None => True
  end.

(** ** Time order *)

(** The largest value of an SQLite INTEGER. *)
Definition INT64_MAX : Z := 9223372036854775807.

(** The bounds [datetime] puts on its fields. *)
Definition in_range (dt : datetime) : Prop :=
  (1 <= year dt <= 9999 /\ 1 <= month dt <= 12 /\ 1 <= day dt <= 31 /\
   hour dt <= 23 /\ minute dt <= 59 /\ second dt <= 59 /\
   microsecond dt <= 999999)%N.

Definition lex (c1 c2 : comparison) : comparison :=
  match c1 with
  | Eq => c2
  | _ => c1
  end.

(** Which of two readings of one clock is the later. *)
Definition datetime_compare (a b : datetime) : comparison :=
  lex (year a ?= year b)%N
   (lex (month a ?= month b)%N
     (lex (day a ?= day b)%N
       (lex (hour a ?= hour b)%N
         (lex (minute a ?= minute b)%N
           (lex (second a ?= second b)%N
                (microsecond a ?= microsecond b)%N))))).

(** [k] decimal digits of [n], the most significant first. *)
Fixpoint zdigits (k : nat) (n : N) : str :=
  match k with
  | O => []
  | S k' => zdigits k' (n / 10) ++ [digit n]
  end.

(** * Properties *)

(** ** Text *)

Lemma str_eqb_eq (a b : str) : str_eqb a b = true <-> a = b.
Proof.
  revert b; induction a as [|x a IH]; intros [|y b]; simpl;
    try (split; [discriminate | congruence]); try tauto.
  rewrite andb_true_iff, N.eqb_eq, IH.
  split; [intros [-> ->]; reflexivity | intros [= -> ->]; tauto].
Qed.

Lemma str_eqb_refl (a : str) : str_eqb a a = true.
Proof. now apply str_eqb_eq. Qed.

Lemma str_eqb_neq (a b : str) : str_eqb a b = false <-> a <> b.
Proof.
  rewrite <- str_eqb_eq. destruct (str_eqb a b); split; congruence.
Qed.

Lemma truthy_false (s : str) : truthy s = false <-> s = [].
Proof.
  unfold truthy. rewrite negb_false_iff. apply str_eqb_eq.
Qed.

Lemma truthy_true (s : str) : truthy s = true <-> s <> [].
Proof.
  unfold truthy. rewrite negb_true_iff. apply str_eqb_neq.
Qed.

(** ** The upsert *)

Lemma for_each_run (items : list NewsItem) (s : db) :
  for_each items s =
  (tt, mkDb (apply_items (written items) (news_items s))
            (journal s ++ map (fun i => InsertOnConflict (url i)) items)).
Proof.
  unfold written.
  revert s; induction items as [|i items IH]; intros [rows log]; simpl.
  - now rewrite app_nil_r.
  - unfold bind, execute, record, bind; simpl.
    destruct (bindable_item i); rewrite IH; simpl; now rewrite <- app_assoc.
Qed.

Lemma upsert_run (i : NewsItem) (items : list NewsItem) (s : db) :
  upsert_news_items (i :: items) s =
  ((Z.of_nat (length (apply_items (written (i :: items)) (news_items s)))
    - Z.of_nat (length (news_items s)))%Z,
   mkDb (apply_items (written (i :: items)) (news_items s))
        (journal s ++ [Connect; SelectCount] ++
         map (fun i => InsertOnConflict (url i)) (i :: items) ++
         [Commit; SelectCount])).
Proof.
  unfold upsert_news_items. generalize (i :: items) as batch. intros batch.
  unfold bind, connect, commit, select_count, record, bind, ret.
  rewrite for_each_run. cbn [news_items journal fst snd].
  now rewrite <- !app_assoc.
Qed.

Lemma upsert_table (items : list NewsItem) (s : db) :
  news_items (snd (upsert_news_items items s)) =
  apply_items (written items) (news_items s).
Proof.
  destruct items as [|i items]; [reflexivity|]. now rewrite upsert_run.
Qed.

Lemma upsert_count (items : list NewsItem) (s : db) :
  fst (upsert_news_items items s) =
  (Z.of_nat (length (apply_items (written items) (news_items s)))
   - Z.of_nat (length (news_items s)))%Z.
Proof.
  destruct items as [|i items]; [simpl; lia|]. now rewrite upsert_run.
Qed.

Lemma find_url_insert (u : str) (item : NewsItem) (rows : list NewsItem) :
  find_url u (insert_on_conflict item rows) =
  if str_eqb (url item) u then
    Some (match find_url u rows with
          | Some r => do_update r item
          | None => item
          end)
  else find_url u rows.
Proof.
  unfold find_url.
  induction rows as [|r rows IH]; simpl.
  - destruct (str_eqb (url item) u); reflexivity.
  - destruct (str_eqb (url r) (url item)) eqn:Eri; simpl.
    + apply str_eqb_eq in Eri. rewrite Eri.
      destruct (str_eqb (url item) u); reflexivity.
    + destruct (str_eqb (url r) u) eqn:Eru.
      * apply str_eqb_eq in Eru. subst u.
        apply str_eqb_neq in Eri.
        assert (H : str_eqb (url item) (url r) = false)
          by (apply str_eqb_neq; congruence).
        now rewrite H.
      * exact IH.
Qed.

Lemma find_url_None (u : str) (rows : list NewsItem) :
  find_url u rows = None <-> ~ In u (map url rows).
Proof.
  unfold find_url. induction rows as [|r rows IH]; simpl.
  - tauto.
  - destruct (str_eqb (url r) u) eqn:E.
    + apply str_eqb_eq in E. split; [discriminate | intros H; exfalso; auto].
    + apply str_eqb_neq in E. rewrite IH. tauto.
Qed.

Lemma urls_insert (item : NewsItem) (rows : list NewsItem) :
  map url (insert_on_conflict item rows) =
  match find_url (url item) rows with
  | Some _ => map url rows
  | None => map url rows ++ [url item]
  end.
Proof.
  unfold find_url. induction rows as [|r rows IH]; simpl; [reflexivity|].
  destruct (str_eqb (url r) (url item)); simpl; [reflexivity|].
  rewrite IH. now destruct (find _ rows).
Qed.

Lemma find_url_apply (u : str) (items rows : list NewsItem) :
  find_url u (apply_items items rows) =
  fold_left merge_one (supplied u items) (find_url u rows).
Proof.
  unfold apply_items.
  revert rows; induction items as [|i items IH]; intros rows; simpl.
  - reflexivity.
  - rewrite IH, find_url_insert.
    destruct (str_eqb (url i) u); reflexivity.
Qed.

Lemma length_insert (item : NewsItem) (rows : list NewsItem) :
  length (insert_on_conflict item rows) =
  match find_url (url item) rows with
  | Some _ => length rows
  | None => S (length rows)
  end.
Proof.
  rewrite <- (length_map url (insert_on_conflict item rows)), urls_insert.
  destruct (find_url (url item) rows).
  - apply length_map.
  - rewrite length_app, length_map. simpl. lia.
Qed.

Lemma urls_insert_incl (u : str) (item : NewsItem) (rows : list NewsItem) :
  In u (map url rows) -> In u (map url (insert_on_conflict item rows)).
Proof.
  rewrite urls_insert. destruct (find_url (url item) rows); [tauto|].
  intros H. apply in_or_app. now left.
Qed.

Lemma urls_insert_self (item : NewsItem) (rows : list NewsItem) :
  In (url item) (map url (insert_on_conflict item rows)).
Proof.
  rewrite urls_insert. destruct (find_url (url item) rows) eqn:E.
  - destruct (in_dec (list_eq_dec N.eq_dec) (url item) (map url rows))
      as [H|H]; [exact H|].
    apply find_url_None in H. congruence.
  - apply in_or_app. right. now left.
Qed.

Lemma urls_apply_incl (u : str) (items rows : list NewsItem) :
  In u (map url rows) -> In u (map url (apply_items items rows)).
Proof.
  unfold apply_items.
  revert rows; induction items as [|i items IH]; intros rows H; simpl.
  - exact H.
  - apply IH. now apply urls_insert_incl.
Qed.

Lemma urls_apply_all (items rows : list NewsItem) :
  forall i, In i items -> In (url i) (map url (apply_items items rows)).
Proof.
  revert rows; induction items as [|j items IH]; intros rows i Hi.
  - destruct Hi.
  - destruct Hi as [<-|Hi].
    + apply (urls_apply_incl _ items). apply urls_insert_self.
    + apply (IH (insert_on_conflict j rows) i Hi).
Qed.

Lemma length_apply_present (items rows : list NewsItem) :
  (forall i, In i items -> In (url i) (map url rows)) ->
  length (apply_items items rows) = length rows.
Proof.
  unfold apply_items.
  revert rows; induction items as [|j items IH]; intros rows H; simpl.
  - reflexivity.
  - assert (Hj : In (url j) (map url rows)) by (apply H; now left).
    rewrite IH.
    + rewrite length_insert. destruct (find_url (url j) rows) eqn:E.
      * reflexivity.
      * apply find_url_None in E. contradiction.
    + intros i Hi. apply urls_insert_incl. apply H. now right.
Qed.

Lemma NoDup_insert (item : NewsItem) (rows : list NewsItem) :
  NoDup (map url rows) -> NoDup (map url (insert_on_conflict item rows)).
Proof.
  intros H. rewrite urls_insert.
  destruct (find_url (url item) rows) eqn:E; [exact H|].
  apply find_url_None in E.
  apply (Permutation_NoDup (Permutation_cons_append _ _)).
  now constructor.
Qed.

Lemma NoDup_apply (items rows : list NewsItem) :
  NoDup (map url rows) -> NoDup (map url (apply_items items rows)).
Proof.
  unfold apply_items.
  revert rows; induction items as [|i items IH]; intros rows H; simpl.
  - exact H.
  - apply IH. now apply NoDup_insert.
Qed.

Lemma NoDup_upsert (items : list NewsItem) (s : db) :
  NoDup (map url (news_items s)) ->
  NoDup (map url (news_items (snd (upsert_news_items items s)))).
Proof.
  rewrite upsert_table. apply NoDup_apply.
Qed.

Lemma run_calls_table (calls : list (list NewsItem)) (s : db) :
  news_items (run_calls calls s) =
  apply_items (written (concat calls)) (news_items s).
Proof.
  unfold run_calls.
  revert s; induction calls as [|batch calls IH]; intros s; simpl.
  - reflexivity.
  - rewrite IH, upsert_table. unfold apply_items, written.
    now rewrite filter_app, fold_left_app.
Qed.

(** C1: when a record [R] is stored under the url of an incoming item
    [I] whose text can be bound, and [I] is the item of the batch
    written for that url, the upsert leaves under that url the record
    whose summary is [I]'s when that is non-empty and [R]'s otherwise,
    whose [fetched_at] is [I]'s, and whose title, url, published_at,
    source_name and category are [R]'s; no row is added for it. *)
Theorem upsert_existing_record (s : db) (R I : NewsItem)
    (items : list NewsItem) :
  find_url (url I) (news_items s) = Some R ->
  bindable_item I = true ->
  supplied (url I) (written items) = [I] ->
  find_url (url I) (news_items (snd (upsert_news_items items s))) =
    Some (mkItem (title R) (url R)
                 (if truthy (summary I) then summary I else summary R)
                 (published_at R) (source_name R) (category R)
                 (fetched_at I)) /\
  find_url (url I) (news_items (snd (upsert_news_items [I] s))) =
    Some (mkItem (title R) (url R)
                 (if truthy (summary I) then summary I else summary R)
                 (published_at R) (source_name R) (category R)
                 (fetched_at I)) /\
  length (news_items (snd (upsert_news_items [I] s))) = length (news_items s).
Proof.
  intros HR HB HI.
  assert (W : written [I] = [I]) by (unfold written; simpl; now rewrite HB).
  repeat split.
  - rewrite upsert_table, find_url_apply, HR, HI. reflexivity.
  - rewrite upsert_table, W, find_url_apply, HR. simpl.
    now rewrite str_eqb_refl.
  - rewrite upsert_table, W. simpl. rewrite length_insert. now rewrite HR.
Qed.

Lemma upsert_existing_record_witness :
  let s := snd (upsert_news_items [Sample.first_write] empty_db) in
  find_url (url Sample.empty_write)
    (news_items (snd (upsert_news_items
                        [Sample.other_url; Sample.unbindable;
                         Sample.empty_write] s))) =
    Some (mkItem (py "Patch Tuesday") (py "https://a.example/1")
                 (py "first text") (py "2024-01-01T00:00:00+00:00")
                 (py "KrCERT") (py "advisory")
                 (py "2024-01-04T00:00:00+00:00")).
Proof.
  intros s.
  exact (proj1 (upsert_existing_record s Sample.first_write
                  Sample.empty_write
                  [Sample.other_url; Sample.unbindable; Sample.empty_write]
                  eq_refl eq_refl eq_refl)).
Defined.

(** An item that cannot be bound changes nothing, a stored record of
    its url included. *)
Lemma unbindable_item_is_skipped (I : NewsItem) (s : db) :
  bindable_item I = false ->
  news_items (snd (upsert_news_items [I] s)) = news_items s /\
  fst (upsert_news_items [I] s) = 0%Z.
Proof.
  intros H. rewrite upsert_count, upsert_table. unfold written. simpl.
  rewrite H. simpl. split; [reflexivity | lia].
Qed.

(** C3: whatever is stored, upserting a batch and then the same batch
    again makes the second call return 0. *)
Theorem upsert_same_batch_twice (batch : list NewsItem) (s : db) :
  fst (upsert_news_items batch (snd (upsert_news_items batch s))) = 0%Z.
Proof.
  rewrite upsert_count, upsert_table.
  rewrite length_apply_present; [lia|].
  intros i Hi. now apply urls_apply_all.
Qed.

(** C9: from the empty store, after any sequence of upsert calls no two
    stored records share a url, and an item whose url is stored adds no
    row. *)
Theorem url_is_unique_key (calls : list (list NewsItem)) :
  let s := run_calls calls empty_db in
  NoDup (map url (news_items s)) /\
  forall I, In (url I) (map url (news_items s)) ->
            length (news_items (snd (upsert_news_items [I] s))) =
            length (news_items s).
Proof.
  intros s. split.
  - subst s. rewrite run_calls_table. apply NoDup_apply. constructor.
  - intros I HI. rewrite upsert_table.
    apply length_apply_present. intros i Hi.
    apply filter_In in Hi. destruct Hi as [[<-|[]] _]. exact HI.
Qed.

Lemma url_is_unique_key_witness :
  length (news_items
            (snd (upsert_news_items [Sample.second_write]
                    (run_calls [[Sample.first_write; Sample.other_url];
                                [Sample.empty_write]] empty_db)))) = 2%nat.
Proof.
  exact (proj2 (url_is_unique_key [[Sample.first_write; Sample.other_url];
                                   [Sample.empty_write]])
               Sample.second_write (or_introl eq_refl)).
Defined.

(** C10: an empty list returns 0 and leaves the store as it is, rows
    and journal: no access is made. *)
Theorem upsert_nothing (s : db) :
  upsert_news_items [] s = (0%Z, s) /\
  journal (snd (upsert_news_items [] s)) = journal s /\
  news_items (snd (upsert_news_items [] s)) = news_items s.
Proof. repeat split. Qed.

(** A batch that is not empty does reach the storage. *)
Lemma upsert_some_accesses (i : NewsItem) (items : list NewsItem) (s : db) :
  journal (snd (upsert_news_items (i :: items) s)) <> journal s.
Proof.
  rewrite upsert_run. cbn [snd journal]. intros H.
  apply (f_equal (@length access)) in H.
  rewrite !length_app in H. simpl in H. lia.
Qed.

(** *** The merge law over several calls *)

Lemma merge_fold_summary (l : list NewsItem) (acc : option NewsItem) :
  match fold_left merge_one l acc with
  | Some R => summary R = merged_summary acc l
  | None => l = [] /\ acc = None
  end.
Proof.
  induction l as [|x l IH] using rev_ind.
  - simpl. destruct acc; [reflexivity | tauto].
  - rewrite fold_left_app. cbn [fold_left].
    unfold merged_summary, last_nonempty.
    rewrite map_app, rev_app_distr. cbn [map rev app find].
    destruct (fold_left merge_one l acc) as [R0|]; unfold merge_one.
    + cbn [do_update summary].
      destruct (truthy (summary x)); [reflexivity|]. exact IH.
    + destruct IH as [-> ->]. cbn [map rev find].
      destruct (truthy (summary x)) eqn:E; [reflexivity|].
      now apply truthy_false.
Qed.

Lemma last_error_snoc {A} (l : list A) (x : A) : last_error (l ++ [x]) = Some x.
Proof. unfold last_error. now rewrite rev_app_distr. Qed.

Lemma last_error_app {A} (l1 l2 : list A) :
  l2 <> [] -> last_error (l1 ++ l2) = last_error l2.
Proof.
  intros H. destruct (exists_last H) as (l & x & ->).
  now rewrite app_assoc, !last_error_snoc.
Qed.

Lemma merge_fold_fetched (l : list NewsItem) (acc : option NewsItem) :
  l <> [] ->
  exists R I, fold_left merge_one l acc = Some R /\
              last_error l = Some I /\ fetched_at R = fetched_at I.
Proof.
  intros H. destruct (exists_last H) as (l' & x & ->).
  rewrite fold_left_app, last_error_snoc. cbn [fold_left].
  destruct (fold_left merge_one l' acc) as [R0|]; unfold merge_one;
    eexists _, x; repeat split; reflexivity.
Qed.

Lemma supplied_last_call (u : str) (calls : list (list NewsItem)) :
  calls <> [] ->
  Forall (fun batch => supplied u (written batch) <> []) calls ->
  supplied u (written (concat calls)) <> [] /\
  last_error (supplied u (written (concat calls))) =
  last_error (supplied u (written (last calls []))).
Proof.
  intros Hne Hall. destruct (exists_last Hne) as (calls' & b & ->).
  apply Forall_app in Hall. destruct Hall as [_ Hb].
  inversion_clear Hb as [|? ? Hb' _].
  rewrite last_last, concat_app. simpl. rewrite app_nil_r.
  unfold supplied, written in *. rewrite !filter_app. split.
  - intros E. apply app_eq_nil in E. tauto.
  - now apply last_error_app.
Qed.

(** C2, as the code has it: over N >= 1 calls that each supply the url
    with an item that is written (its text can be bound), the stored
    summary is the last non-empty summary among the written items of
    that url (when none was non-empty, the summary stored before the
    calls, and the empty one for a url that was not stored), and the
    stored [fetched_at] is that of the last such item of the most
    recent call. *)
Theorem last_nonempty_summary_law (s0 : db) (u : str)
    (calls : list (list NewsItem)) :
  calls <> [] ->
  Forall (fun batch => supplied u (written batch) <> []) calls ->
  exists R,
    find_url u (news_items (run_calls calls s0)) = Some R /\
    summary R = merged_summary (find_url u (news_items s0))
                               (supplied u (written (concat calls))) /\
    (exists I, last_error (supplied u (written (last calls []))) = Some I /\
               fetched_at R = fetched_at I).
Proof.
  intros Hne Hall.
  destruct (supplied_last_call u calls Hne Hall) as [Hs Hlast].
  rewrite run_calls_table, find_url_apply.
  destruct (merge_fold_fetched _ (find_url u (news_items s0)) Hs)
    as (R & I & HR & HI & HF).
  exists R. split; [exact HR|]. split.
  - pose proof (merge_fold_summary (supplied u (written (concat calls)))
                  (find_url u (news_items s0))) as H.
    now rewrite HR in H.
  - exists I. split; [congruence | exact HF].
Qed.

Lemma last_nonempty_summary_law_witness :
  exists R,
    find_url (py "https://a.example/1")
      (news_items (run_calls [[Sample.first_write]; [Sample.second_write];
                              [Sample.other_url; Sample.empty_write]]
                             empty_db)) = Some R /\
    summary R = py "second text" /\
    (exists I, last_error (supplied (py "https://a.example/1")
                             (written [Sample.other_url; Sample.empty_write]))
               = Some I /\
               fetched_at R = fetched_at I).
Proof.
  apply (last_nonempty_summary_law empty_db (py "https://a.example/1")
           [[Sample.first_write]; [Sample.second_write];
            [Sample.other_url; Sample.empty_write]]).
  - discriminate.
  - repeat constructor; discriminate.
Defined.

(** C2 as worded fails: with "first text" supplied first and "second
    text" second for one url, the store holds "second text". *)
Lemma first_nonempty_summary_law_fails :
  ~ first_nonempty_summary_law empty_db (py "https://a.example/1")
      [[Sample.first_write]; [Sample.second_write]].
Proof.
  intros H. destruct H as (R & HR & HS & _).
  - discriminate.
  - repeat constructor; discriminate.
  - specialize (HS (py "first text") eq_refl).
    vm_compute in HR. injection HR as <-. discriminate HS.
Qed.

(** ** The read boundary *)

Lemma str_compare_eq (a b : str) : str_compare a b = Eq <-> a = b.
Proof.
  revert b; induction a as [|x a IH]; intros [|y b]; simpl;
    try (split; [discriminate | congruence]); try tauto.
  destruct (N.compare x y) eqn:E.
  - apply N.compare_eq_iff in E. subst y. rewrite IH.
    split; [congruence | intros [= ->]; reflexivity].
  - split; [discriminate | intros [= -> _]].
    rewrite N.compare_refl in E. discriminate.
  - split; [discriminate | intros [= -> _]].
    rewrite N.compare_refl in E. discriminate.
Qed.

Lemma str_compare_antisym (a b : str) :
  str_compare b a = CompOpp (str_compare a b).
Proof.
  revert b; induction a as [|x a IH]; intros [|y b]; simpl; try reflexivity.
  rewrite (N.compare_antisym x y).
  destruct (N.compare x y); simpl; auto.
Qed.

Lemma str_compare_gt_trans (a b c : str) :
  str_compare a b = Gt -> str_compare b c = Gt -> str_compare a c = Gt.
Proof.
  revert b c; induction a as [|x a IH]; intros [|y b] [|z c]; simpl;
    try discriminate; try reflexivity.
  destruct (N.compare x y) eqn:E1; destruct (N.compare y z) eqn:E2;
    try discriminate; intros H1 H2.
  - apply N.compare_eq_iff in E1, E2. subst. rewrite N.compare_refl. eauto.
  - apply N.compare_eq_iff in E1. subst. now rewrite E2.
  - apply N.compare_eq_iff in E2. subst. now rewrite E1.
  - apply N.compare_gt_iff in E1, E2.
    assert (E : N.compare x z = Gt) by (apply N.compare_gt_iff; lia).
    now rewrite E.
Qed.

Lemma str_compare_ge_trans (a b c : str) :
  str_compare a b <> Lt -> str_compare b c <> Lt -> str_compare a c <> Lt.
Proof.
  intros H1 H2.
  destruct (str_compare a b) eqn:E1; [| congruence |].
  - apply str_compare_eq in E1. now subst.
  - destruct (str_compare b c) eqn:E2; [| congruence |].
    + apply str_compare_eq in E2. subst. congruence.
    + rewrite (str_compare_gt_trans a b c E1 E2). discriminate.
Qed.

Lemma order_by_desc (a b : NewsItem) : order_by a b = true <-> desc_before a b.
Proof.
  unfold order_by, desc_before.
  destruct (str_compare (published_at a) (published_at b)) eqn:E.
  - apply str_compare_eq in E.
    destruct (str_compare (fetched_at a) (fetched_at b));
      split; intros H; try reflexivity; try discriminate;
      try (right; split; [exact E | discriminate]);
      destruct H as [H | [_ H]]; congruence.
  - split; [discriminate | intros [H | [H _]]; [discriminate|]].
    apply str_compare_eq in H. congruence.
  - split; [now left | reflexivity].
Qed.

Lemma desc_before_total (a b : NewsItem) :
  order_by a b = false -> desc_before b a.
Proof.
  unfold order_by, desc_before. intros H.
  rewrite (str_compare_antisym (published_at a) (published_at b)).
  rewrite (str_compare_antisym (fetched_at a) (fetched_at b)).
  destruct (str_compare (published_at a) (published_at b)) eqn:E;
    try discriminate.
  - apply str_compare_eq in E.
    destruct (str_compare (fetched_at a) (fetched_at b)); try discriminate.
    right. split; [congruence | discriminate].
  - now left.
Qed.

Lemma desc_before_trans (a b c : NewsItem) :
  desc_before a b -> desc_before b c -> desc_before a c.
Proof.
  unfold desc_before.
  intros [H1 | [E1 H1]] [H2 | [E2 H2]].
  - left. eapply str_compare_gt_trans; eassumption.
  - left. congruence.
  - left. congruence.
  - right. split; [congruence|].
    eapply str_compare_ge_trans; eassumption.
Qed.

Lemma place_perm (r : NewsItem) (l : list NewsItem) :
  Permutation (place r l) (r :: l).
Proof.
  induction l as [|x l IH]; simpl; [reflexivity|].
  destruct (order_by r x); [reflexivity|].
  rewrite IH. apply perm_swap.
Qed.

Lemma ordered_perm (rows : list NewsItem) : Permutation (ordered rows) rows.
Proof.
  induction rows as [|r rows IH]; simpl; [reflexivity|].
  rewrite place_perm. now constructor.
Qed.

Lemma place_sorted (r : NewsItem) (l : list NewsItem) :
  StronglySorted desc_before l -> StronglySorted desc_before (place r l).
Proof.
  induction 1 as [|x l Hs IH Hx]; simpl.
  - repeat constructor.
  - destruct (order_by r x) eqn:E.
    + apply order_by_desc in E.
      constructor; [now constructor|].
      constructor; [exact E|].
      eapply Forall_impl; [|exact Hx].
      intros y. now apply desc_before_trans.
    + constructor; [exact IH|].
      apply (Permutation_Forall (Permutation_sym (place_perm r l))).
      constructor; [now apply desc_before_total | exact Hx].
Qed.

Lemma ordered_sorted (rows : list NewsItem) :
  StronglySorted desc_before (ordered rows).
Proof.
  induction rows as [|r rows IH]; simpl; [constructor|].
  now apply place_sorted.
Qed.

Lemma Forall_firstn {A} (P : A -> Prop) (n : nat) (l : list A) :
  Forall P l -> Forall P (firstn n l).
Proof.
  intros H. revert n; induction H; intros [|n]; simpl; auto.
Qed.

Lemma sorted_firstn (n : nat) (l : list NewsItem) :
  StronglySorted desc_before l -> StronglySorted desc_before (firstn n l).
Proof.
  intros H. revert n; induction H; intros [|n]; simpl; try constructor; auto.
  now apply Forall_firstn.
Qed.

Lemma sorted_skipn (n : nat) (l : list NewsItem) :
  StronglySorted desc_before l -> StronglySorted desc_before (skipn n l).
Proof.
  intros H. revert n; induction H; intros [|n]; simpl; try constructor; auto.
Qed.

Lemma fits_int64_spec (v : Z) :
  fits_int64 v = true <-> (- INT64_MAX - 1 <= v <= INT64_MAX)%Z.
Proof.
  unfold fits_int64, INT64_MAX. rewrite andb_true_iff, !Z.leb_le. lia.
Qed.

Lemma get_news_run (limit offset : Z) (s : db) :
  fits_int64 limit = true -> fits_int64 offset = true ->
  get_news limit offset s =
  (Returned (limit_offset limit offset (ordered (news_items s))),
   mkDb (news_items s) (journal s ++ [Connect; SelectPage limit offset])).
Proof.
  intros Hl Ho. unfold get_news, bind, connect, record. rewrite Hl, Ho.
  simpl. now rewrite <- app_assoc.
Qed.

Lemma get_news_raises (limit offset : Z) (s : db) :
  fits_int64 limit && fits_int64 offset = false ->
  get_news limit offset s =
  (Raised (py "OverflowError"), mkDb (news_items s) (journal s ++ [Connect])).
Proof.
  intros H. unfold get_news, bind, connect, record, ret. now rewrite H.
Qed.

Lemma get_total_count_run (s : db) :
  get_total_count s =
  (Z.of_nat (length (news_items s)),
   mkDb (news_items s) (journal s ++ [Connect; SelectCount])).
Proof.
  unfold get_total_count, select_count, bind, connect, record. simpl.
  now rewrite <- app_assoc.
Qed.

(** C8: with a limit and an offset that are not negative and fit an
    SQLite INTEGER, [get_news] returns the slice of the stored rows,
    ordered by published_at descending with fetched_at descending on a
    tie, that skips the first [offset] rows and holds at most [limit];
    the count read next is the number of stored rows; over five rows,
    limit 2 and offset 0 give exactly 2. *)
Theorem get_news_page (s : db) (limit offset : Z) :
  (0 <= limit <= INT64_MAX)%Z -> (0 <= offset <= INT64_MAX)%Z ->
  let s' := snd (get_news limit offset s) in
  exists page,
    fst (get_news limit offset s) = Returned page /\
    (exists all,
        Permutation all (news_items s) /\
        StronglySorted desc_before all /\
        page = firstn (Z.to_nat limit) (skipn (Z.to_nat offset) all)) /\
    StronglySorted desc_before page /\
    (Z.of_nat (length page) <= limit)%Z /\
    length page = Nat.min (Z.to_nat limit)
                          (length (news_items s) - Z.to_nat offset) /\
    news_items s' = news_items s /\
    fst (get_total_count s') = Z.of_nat (length (news_items s)) /\
    (length (news_items s) = 5%nat -> limit = 2%Z -> offset = 0%Z ->
     length page = 2%nat).
Proof.
  intros Hl Ho s'. subst s'.
  rewrite get_news_run by (apply fits_int64_spec; unfold INT64_MAX in *; lia).
  rewrite get_total_count_run. cbn [fst snd news_items].
  eexists. split; [reflexivity|].
  unfold limit_offset.
  assert (E : (limit <? 0)%Z = false) by (apply Z.ltb_ge; lia).
  rewrite E.
  assert (L : length (firstn (Z.to_nat limit)
                        (skipn (Z.to_nat offset) (ordered (news_items s)))) =
              Nat.min (Z.to_nat limit)
                      (length (news_items s) - Z.to_nat offset)).
  { rewrite length_firstn, length_skipn.
    now rewrite (Permutation_length (ordered_perm (news_items s))). }
  repeat split.
  - exists (ordered (news_items s)).
    split; [apply ordered_perm|]. split; [apply ordered_sorted | reflexivity].
  - apply sorted_firstn, sorted_skipn, ordered_sorted.
  - rewrite L. lia.
  - exact L.
  - intros H5 -> ->. rewrite L, H5. reflexivity.
Qed.

Lemma get_news_page_witness :
  exists page,
    fst (get_news 2 0 (mkDb Sample.five [])) = Returned page /\
    page = [Sample.dated "u4" "2024-01-05" "f2";
            Sample.dated "u2" "2024-01-05" "f1"] /\
    length page = 2%nat.
Proof.
  destruct (get_news_page (mkDb Sample.five []) 2 0)
    as (page & H & _ & _ & _ & _ & _ & _ & H5);
    [unfold INT64_MAX; lia | unfold INT64_MAX; lia |].
  exists page. split; [exact H|]. split.
  - vm_compute in H. now injection H as <-.
  - now apply H5.
Defined.

(** X21: [GET /api/news] turns a request down unless 1 <= limit <= 500
    and offset >= 0; it then answers with the page of [get_news] and,
    as total, the number of stored rows when the offset fits an SQLite
    INTEGER, and fails with the OverflowError of [get_news] when it
    does not. *)
Lemma api_news_page (s : db) (limit offset : Z) :
  match fst (Main.api_news limit offset s) with
  | Some (Returned p) =>
      (1 <= limit <= 500)%Z /\ (0 <= offset <= INT64_MAX)%Z /\
      fst (get_news limit offset s) = Returned (Main.items p) /\
      Main.total p = Z.of_nat (length (news_items s))
  | Some (Raised exc) =>
      (1 <= limit <= 500)%Z /\ (INT64_MAX < offset)%Z /\
      fst (get_news limit offset s) = Raised exc
  | None => ~ ((1 <= limit <= 500)%Z /\ (0 <= offset)%Z)
  end.
Proof.
  unfold Main.api_news.
  destruct ((1 <=? limit)%Z && (limit <=? 500)%Z && (0 <=? offset)%Z) eqn:E.
  - apply andb_true_iff in E. destruct E as [E E3].
    apply andb_true_iff in E. destruct E as [E1 E2].
    apply Z.leb_le in E1, E2, E3.
    assert (Fl : fits_int64 limit = true)
      by (apply fits_int64_spec; unfold INT64_MAX; lia).
    unfold bind, ret.
    destruct (fits_int64 offset) eqn:Fo.
    + rewrite get_news_run, get_total_count_run by assumption.
      cbn [fst snd Main.items Main.total news_items].
      apply fits_int64_spec in Fo. repeat split; try assumption; lia.
    + rewrite get_news_raises by (rewrite Fl, Fo; reflexivity).
      cbn [fst snd]. repeat split; try assumption.
      destruct (Z.le_gt_cases offset INT64_MAX) as [H|H]; [|exact H].
      assert (F : fits_int64 offset = true)
        by (apply fits_int64_spec; unfold INT64_MAX in *; lia).
      congruence.
  - simpl. intros [[H1 H2] H3].
    apply Z.leb_le in H1, H2, H3. rewrite H1, H2, H3 in E. discriminate.
Qed.

(** ** Text of an entry *)

#[local] Arguments N.eqb : simpl never.

Lemma exists_first_gt (l : str) :
  existsb (N.eqb GT_SIGN) l = true ->
  exists a post, l = a ++ GT_SIGN :: post /\ ~ In GT_SIGN a.
Proof.
  induction l as [|c l IH]; simpl; [discriminate|].
  destruct (N.eqb GT_SIGN c) eqn:E; simpl.
  - apply N.eqb_eq in E. subst c. intros _. exists [], l. split; auto.
  - intros H. destruct (IH H) as (a & post & -> & Ha).
    exists (c :: a), post. split; [reflexivity|].
    apply N.eqb_neq in E. intros [H1|H1]; [congruence | contradiction].
Qed.

Lemma existsb_gt_In (l : str) :
  existsb (N.eqb GT_SIGN) l = true <-> In GT_SIGN l.
Proof.
  rewrite existsb_exists. split.
  - intros (x & Hx & E). apply N.eqb_eq in E. now subst.
  - intros H. exists GT_SIGN. split; [exact H | apply N.eqb_refl].
Qed.

(** After a '<' the pattern matches exactly when a body of one or more
    code points other than '>' is followed by a '>'. *)
Lemma tag_opens_spec (r : str) :
  tag_opens r = true <->
  exists body post, r = body ++ GT_SIGN :: post /\
                    body <> [] /\ ~ In GT_SIGN body.
Proof.
  split.
  - destruct r as [|c r]; simpl; [discriminate|].
    rewrite andb_true_iff, negb_true_iff, N.eqb_neq.
    intros [Hc H]. destruct (exists_first_gt r H) as (a & post & -> & Ha).
    exists (c :: a), post. split; [reflexivity|]. split; [discriminate|].
    intros [H1|H1]; [congruence | contradiction].
  - intros (body & post & -> & Hne & Hb).
    destruct body as [|c body]; [congruence|]. simpl.
    rewrite andb_true_iff, negb_true_iff, N.eqb_neq. split.
    + intros ->. apply Hb. now left.
    + apply existsb_gt_In, in_or_app. right. now left.
Qed.

Lemma sub_in_tag (body post : str) :
  ~ In GT_SIGN body ->
  re_sub_tags_from true (body ++ GT_SIGN :: post) = re_sub_tags_from false post.
Proof.
  induction body as [|c body IH]; intros H; simpl.
  - reflexivity.
  - destruct (N.eqb c GT_SIGN) eqn:E.
    + apply N.eqb_eq in E. exfalso. apply H. now left.
    + apply IH. intros H1. apply H. now right.
Qed.

(** [re.sub] drops the leftmost match and goes on after it. *)
Lemma re_sub_tags_match (body post : str) :
  body <> [] -> ~ In GT_SIGN body ->
  re_sub_tags (LT_SIGN :: body ++ GT_SIGN :: post) = re_sub_tags post.
Proof.
  intros Hne Hb. unfold re_sub_tags.
  cbn [re_sub_tags_from].
  assert (H : tag_opens (body ++ GT_SIGN :: post) = true)
    by (apply tag_opens_spec; eauto).
  rewrite H. cbn. now apply sub_in_tag.
Qed.

(** Where the pattern does not match, the code point is kept. *)
Lemma re_sub_tags_keep (c : N) (r : str) :
  c <> LT_SIGN \/ tag_opens r = false ->
  re_sub_tags (c :: r) = c :: re_sub_tags r.
Proof.
  unfold re_sub_tags. cbn [re_sub_tags_from]. intros [H|H].
  - apply N.eqb_neq in H. now rewrite H.
  - rewrite H. now rewrite andb_false_r.
Qed.

Lemma sub_no_gt (b : bool) (s : str) :
  existsb (N.eqb GT_SIGN) s = false ->
  existsb (N.eqb GT_SIGN) (re_sub_tags_from b s) = false.
Proof.
  revert b; induction s as [|c s IH]; intros b; simpl; [reflexivity|].
  rewrite orb_false_iff. intros [Hc Hs].
  destruct b.
  - destruct (N.eqb c GT_SIGN); auto.
  - destruct (N.eqb c LT_SIGN && tag_opens s); simpl; auto.
    rewrite Hc. simpl. auto.
Qed.

Lemma tag_opens_has_gt (r : str) :
  tag_opens r = true -> existsb (N.eqb GT_SIGN) r = true.
Proof.
  destruct r as [|c r]; simpl; [discriminate|].
  rewrite andb_true_iff. intros [_ H]. rewrite H. apply orb_true_r.
Qed.

Lemma sub_keeps_closed (r : str) :
  tag_opens r = false -> tag_opens (re_sub_tags_from false r) = false.
Proof.
  destruct r as [|c r]; [reflexivity|].
  cbn [tag_opens]. rewrite andb_false_iff, negb_false_iff.
  intros [H|H].
  - apply N.eqb_eq in H. subst c. reflexivity.
  - destruct (tag_opens (re_sub_tags_from false (c :: r))) eqn:E;
      [|reflexivity].
    destruct (N.eqb c GT_SIGN) eqn:Ec.
    + apply N.eqb_eq in Ec. subst c. discriminate E.
    + apply tag_opens_has_gt in E.
      rewrite sub_no_gt in E; [discriminate|].
      simpl. rewrite H, N.eqb_sym, Ec. reflexivity.
Qed.

Lemma sub_no_tag (b : bool) (s : str) : no_tag (re_sub_tags_from b s) = true.
Proof.
  revert b; induction s as [|c s IH]; intros b; simpl; [reflexivity|].
  destruct b.
  - destruct (N.eqb c GT_SIGN); apply IH.
  - destruct (N.eqb c LT_SIGN) eqn:Ec; simpl.
    + destruct (tag_opens s) eqn:Et; [apply IH|].
      simpl. rewrite Ec, (sub_keeps_closed s Et), IH. reflexivity.
    + rewrite Ec, IH. reflexivity.
Qed.

Lemma tag_opens_app (a b : str) :
  tag_opens a = true -> tag_opens (a ++ b) = true.
Proof.
  destruct a as [|c a]; simpl; [discriminate|].
  rewrite !andb_true_iff, existsb_app. intros [-> ->]. auto.
Qed.

Lemma no_tag_prefix (a b : str) : no_tag (a ++ b) = true -> no_tag a = true.
Proof.
  induction a as [|c a IH]; simpl; [reflexivity|].
  rewrite !andb_true_iff, !negb_true_iff. intros [H1 H2].
  split; [|auto].
  destruct (N.eqb c LT_SIGN); [|reflexivity]. simpl in *.
  destruct (tag_opens a) eqn:E; [|reflexivity].
  now rewrite (tag_opens_app a b E) in H1.
Qed.

Lemma no_tag_suffix (a b : str) : no_tag (a ++ b) = true -> no_tag b = true.
Proof.
  induction a as [|c a IH]; simpl; [auto|].
  rewrite andb_true_iff. intros [_ H]. auto.
Qed.

Lemma no_tag_ellipsis (a : str) :
  no_tag a = true -> no_tag (a ++ ELLIPSIS) = true.
Proof.
  induction a as [|c a IH]; simpl; [reflexivity|].
  rewrite !andb_true_iff, !negb_true_iff. intros [H1 H2].
  split; [|auto].
  destruct (N.eqb c LT_SIGN); [|reflexivity]. simpl in *.
  destruct a as [|d a]; [reflexivity|]. simpl in *.
  rewrite existsb_app. simpl. now rewrite orb_false_r.
Qed.

(** The check and the pattern say the same. *)
Lemma no_tag_spec (s : str) : no_tag s = true <-> ~ has_tag s.
Proof.
  split.
  - intros H (pre & m & post & -> & body & -> & Hne & Hb).
    apply no_tag_suffix in H. simpl in H.
    rewrite andb_true_iff, negb_true_iff in H. destruct H as [H _].
    rewrite <- app_assoc in H. simpl in H.
    assert (E : tag_opens (body ++ GT_SIGN :: post) = true)
      by (apply tag_opens_spec; eauto).
    rewrite E in H. discriminate.
  - intros H. induction s as [|c s IH]; simpl; [reflexivity|].
    rewrite andb_true_iff, negb_true_iff. split.
    + destruct (N.eqb c LT_SIGN) eqn:Ec; [|reflexivity]. simpl.
      destruct (tag_opens s) eqn:Et; [|reflexivity].
      exfalso. apply H. apply N.eqb_eq in Ec. subst c.
      apply tag_opens_spec in Et.
      destruct Et as (body & post & -> & Hne & Hb).
      exists [], (LT_SIGN :: body ++ [GT_SIGN]), post. split.
      * simpl. now rewrite <- app_assoc.
      * exists body. auto.
    + apply IH. intros (pre & m & post & -> & Hm).
      apply H. exists (c :: pre), m, post. auto.
Qed.

Lemma lstrip_split (s : str) : exists ws, s = ws ++ lstrip s /\ all_space ws.
Proof.
  induction s as [|c s (ws & E & H)]; cbn [lstrip].
  - exists []. split; [reflexivity | constructor].
  - destruct (isspace c) eqn:Ec.
    + exists (c :: ws). split; [simpl; congruence | now constructor].
    + exists []. split; [reflexivity | constructor].
Qed.

Lemma lstrip_head (s : str) (c : N) (t : str) :
  lstrip s = c :: t -> isspace c = false.
Proof.
  induction s as [|d s IH]; cbn [lstrip]; [discriminate|].
  destruct (isspace d) eqn:Ed; [exact IH|]. intros [= -> _]. exact Ed.
Qed.

Lemma rstrip_split (s : str) : exists ws, s = rstrip s ++ ws /\ all_space ws.
Proof.
  destruct (lstrip_split (rev s)) as (ws & E & H).
  exists (rev ws). split.
  - unfold rstrip. rewrite <- rev_app_distr, <- E. symmetry. apply rev_involutive.
  - unfold all_space. now apply Forall_rev.
Qed.

Lemma rstrip_last (s t : str) (c : N) :
  rstrip s = t ++ [c] -> isspace c = false.
Proof.
  unfold rstrip. intros H. apply (f_equal (@rev N)) in H.
  rewrite rev_involutive, rev_app_distr in H. simpl in H.
  now apply lstrip_head in H.
Qed.

(** [str.strip]: the whitespace at both ends goes, and only that. *)
Lemma strip_trimmed (s : str) : trimmed s (strip s).
Proof.
  unfold strip.
  destruct (lstrip_split s) as (l & El & Hl).
  destruct (rstrip_split (lstrip s)) as (r & Er & Hr).
  split; [|split].
  - exists l, r. split; [congruence | auto].
  - intros c t E. rewrite E in Er. simpl in Er.
    now apply lstrip_head in Er.
  - intros t c E. now apply rstrip_last in E.
Qed.



Lemma strip_no_tag (s : str) : no_tag s = true -> no_tag (strip s) = true.
Proof.
  intros H. destruct (strip_trimmed s) as [(l & r & E & _) _].
  rewrite E in H. apply no_tag_suffix in H. now apply no_tag_prefix in H.
Qed.



(** ** The keyword filter *)

Lemma startswith_spec (p s : str) :
  startswith p s = true <-> exists post, s = p ++ post.
Proof.
  revert s; induction p as [|a p IH]; intros s; cbn [startswith].
  - split; [intros _; now exists s | reflexivity].
  - destruct s as [|b s].
    + split; [discriminate | intros (post & H); discriminate].
    + rewrite andb_true_iff, N.eqb_eq, IH. split.
      * intros (-> & post & ->). now exists post.
      * intros (post & [= -> ->]). split; [reflexivity | now exists post].
Qed.

Lemma contains_spec (needle hay : str) :
  contains needle hay = true <-> exists pre post, hay = pre ++ needle ++ post.
Proof.
  induction hay as [|c hay IH]; cbn [contains];
    rewrite orb_true_iff, startswith_spec.
  - split.
    + intros [(post & H)|H]; [|discriminate]. now exists [], post.
    + intros (pre & post & H). left.
      destruct pre; [|discriminate]. now exists post.
  - rewrite IH. split.
    + intros [(post & H)|(pre & post & ->)].
      * now exists [], post.
      * now exists (c :: pre), post.
    + intros (pre & post & H). destruct pre as [|d pre].
      * left. now exists post.
      * right. injection H as -> ->. now exists pre, post.
Qed.

Lemma normalize_entries_app (dateutil_parse : str -> option datetime)
    (str_lower : str -> str)
    (name category fetched_at kw : str) (clock : nat -> datetime)
    (before : list Entry.t) (entry : Entry.t) (after : list Entry.t) (k : nat) :
  normalize_entries dateutil_parse str_lower name category fetched_at kw clock
                    k (before ++ entry :: after) =
  normalize_entries dateutil_parse str_lower name category fetched_at kw clock
                    k before ++
  match normalize_entry dateutil_parse str_lower name category fetched_at kw
                        (clock (k + length before)) entry with
  | Some item => [item]
  | None => []
  end ++
  normalize_entries dateutil_parse str_lower name category fetched_at kw clock
                    (S (k + length before)) after.
Proof.
  revert k; induction before as [|e before IH]; intros k;
    cbn [app normalize_entries length].
  - rewrite Nat.add_0_r.
    now destruct (normalize_entry _ _ _ _ _ _ (clock k) entry).
  - rewrite IH, Nat.add_succ_r. cbn [Nat.add].
    now destruct (normalize_entry _ _ _ _ _ _ (clock k) e).
Qed.

(** C5, as the code has it: for a source with a non-empty keyword, an
    entry that has a url is emitted exactly when the keyword occurs, up
    to case ([str.lower] on both sides), in the emitted title (the
    entry's title, stripped, or the placeholder), one space and the
    cleaned summary put together; without a keyword no entry is
    dropped by the filter; and what the loop makes of an entry does
    not depend on the entries around it.  [str.lower] maps the empty
    keyword, and only it, to the empty text. *)
Theorem keyword_filter_per_entry (dateutil_parse : str -> option datetime)
    (str_lower : str -> str) (source : Source.t) (name fetched_at : str)
    (now : datetime) (entry : Entry.t) :
  let kw := get_default (Source.filter_keyword source) [] in
  let category := get_default (Source.category source) [] in
  (str_lower kw = [] <-> kw = []) ->
  truthy (item_url_of entry) = true ->
  (kw <> [] ->
   (normalize_entry dateutil_parse str_lower name category fetched_at
                    (str_lower kw) now entry <> None
    <-> occurs_nocase str_lower kw
          (title_of entry ++ py " " ++ summary_of entry))) /\
  (kw = [] ->
   normalize_entry dateutil_parse str_lower name category fetched_at
                   (str_lower kw) now entry <> None) /\
  (forall clock k before after,
      normalize_entries dateutil_parse str_lower name category fetched_at
                        (str_lower kw) clock k (before ++ entry :: after) =
      normalize_entries dateutil_parse str_lower name category fetched_at
                        (str_lower kw) clock k before ++
      match normalize_entry dateutil_parse str_lower name category fetched_at
                            (str_lower kw) (clock (k + length before)) entry
      with
      | Some item => [item]
      | None => []
      end ++
      normalize_entries dateutil_parse str_lower name category fetched_at
                        (str_lower kw) clock (S (k + length before)) after).
Proof.
  intros kw category Hlow Hurl. split; [|split].
  - intros Hkw. unfold occurs_nocase.
    rewrite <- contains_spec.
    unfold normalize_entry. rewrite Hurl. cbn [negb].
    assert (Ht : truthy (str_lower kw) = true)
      by (apply truthy_true; now rewrite Hlow).
    rewrite Ht. cbn [andb]. unfold content_to_check.
    destruct (contains (str_lower kw)
                (str_lower (title_of entry ++ py " " ++ summary_of entry)));
      cbn [negb]; split; congruence.
  - intros Hkw. unfold normalize_entry.
    assert (Ht : truthy (str_lower kw) = false)
      by (apply truthy_false; now apply Hlow).
    rewrite Hurl, Ht. discriminate.
  - intros clock k before after. apply normalize_entries_app.
Qed.

Lemma keyword_filter_per_entry_witness :
  normalize_entry SampleFeed.parse_plain SampleFeed.ascii_lower (py "Feed")
    (py "news") (py "2024-06-01T12:00:00+00:00")
    (SampleFeed.ascii_lower (py "RansomWare")) SampleFeed.noon
    (SampleFeed.entry "Ransomware attack hits hospital" "<p>Wards closed.</p>"
                      None None) <> None.
Proof.
  refine (proj2 (proj1 (keyword_filter_per_entry SampleFeed.parse_plain
           SampleFeed.ascii_lower
           (SampleFeed.source "https://feed.example/rss"
                              (Some (py "RansomWare")) None)
           (py "Feed") (py "2024-06-01T12:00:00+00:00") SampleFeed.noon
           (SampleFeed.entry "Ransomware attack hits hospital"
                             "<p>Wards closed.</p>" None None)
           _ eq_refl) _) _).
  - split; intros H; vm_compute in H; discriminate H.
  - vm_compute. discriminate.
  - exists [], (py " attack hits hospital wards closed."). reflexivity.
Defined.

(** C5 as worded fails: "darkweb" occurs in the title "Inside the dark"
    followed at once by the summary "web markets", and the entry is
    dropped, a space standing between the two in the text tested.  On
    these ASCII texts [str.lower] is [ascii_lower]. *)
Lemma keyword_in_title_summary_fails :
  ~ keyword_in_title_summary SampleFeed.parse_plain SampleFeed.ascii_lower
      (SampleFeed.source "https://feed.example/rss" (Some (py "darkweb")) None)
      (py "Feed") (py "2024-06-01T12:00:00+00:00") SampleFeed.noon
      SampleFeed.straddle.
Proof.
  intros H. destruct H as [_ H].
  - vm_compute. discriminate.
  - reflexivity.
  - apply H; [|reflexivity].
    exists (py "inside the "), (py " markets"). reflexivity.
Qed.

(** The feed of two entries under the keyword "ransomware": only the
    first is in the output. *)
Lemma fetch_rss_ransomware :
  _fetch_rss SampleFeed.http_get SampleFeed.feedparser_parse
    SampleFeed.parse_plain SampleFeed.ascii_lower SampleFeed.noon
    (fun _ => SampleFeed.noon)
    (SampleFeed.source "https://feed.example/rss" (Some (py "RansomWare"))
                       None) =
  Returned [mkItem (py "Ransomware attack hits hospital")
                   (py "https://n.example/a") (py "Wards closed.")
                   (py "2024-06-01T12:00:00+00:00") (py "Feed") (py "news")
                   (py "2024-06-01T12:00:00+00:00")].
Proof. vm_compute. reflexivity. Qed.

(** ** The published timestamp *)

Lemma isoformat_nonempty (dt : datetime) : isoformat dt <> [].
Proof. unfold isoformat, zfill4. cbn [app]. discriminate. Qed.







(** A first field that does not parse is not passed over for the next
    one: the clock is used. *)
Lemma unparsable_published_uses_clock :
  option_map published_at
    (normalize_entry SampleFeed.parse_plain SampleFeed.ascii_lower
       (py "Feed") (py "news")
       (py "2024-06-01T12:00:00+00:00") [] SampleFeed.noon
       (SampleFeed.entry "Advisory" "" (Some (py "yesterday"))
                         (Some (py "2024-01-01T00:00:00"))))
  = Some (py "2024-06-01T12:00:00+00:00").
Proof. vm_compute. reflexivity. Qed.

(** ** The aggregate fetch *)

Lemma make_tasks_named (http_get : str -> option (list Byte.byte))
    (feedparser_parse : list Byte.byte -> outcome parsed)
    (dateutil_parse : str -> option datetime) (str_lower : str -> str)
    (clocks : nat -> readings) (sources : list Source.t) (i : nat) :
  Forall named_unless_rss sources ->
  exists tasks,
    make_tasks http_get feedparser_parse dateutil_parse str_lower clocks i
               sources = Returned tasks /\
    extend_all tasks =
    contributions http_get feedparser_parse dateutil_parse str_lower clocks i
                  sources.
Proof.
  intros H. revert i; induction H as [|s sources Hs _ IH]; intros i;
    cbn [make_tasks contributions].
  - exists []. split; reflexivity.
  - destruct (IH (S i)) as (tasks & E & X). rewrite E.
    unfold contribution, named_unless_rss, is_rss in *.
    destruct (str_eqb (get_default (Source.type s) (py "rss")) (py "rss")).
    + eexists. split; [reflexivity|]. cbn [extend_all].
      destruct (_fetch_rss _ _ _ _ _ _ s); now rewrite X.
    + destruct (Source.name s) as [n|]; [|now destruct Hs].
      exists tasks. split; [|exact X].
      now destruct (str_eqb _ (py "scraper")).
Qed.

Lemma contributions_app (http_get : str -> option (list Byte.byte))
    (feedparser_parse : list Byte.byte -> outcome parsed)
    (dateutil_parse : str -> option datetime) (str_lower : str -> str)
    (clocks : nat -> readings) (before : list Source.t) (s : Source.t)
    (after : list Source.t) (i : nat) :
  contributions http_get feedparser_parse dateutil_parse str_lower clocks i
                (before ++ s :: after) =
  contributions http_get feedparser_parse dateutil_parse str_lower clocks i
                before ++
  contribution http_get feedparser_parse dateutil_parse str_lower clocks
               (i + length before) s ++
  contributions http_get feedparser_parse dateutil_parse str_lower clocks
                (S (i + length before)) after.
Proof.
  revert i; induction before as [|b before IH]; intros i;
    cbn [app contributions length].
  - now rewrite Nat.add_0_r.
  - now rewrite IH, <- app_assoc, Nat.add_succ_r.
Qed.

Lemma fetch_all_feeds_run (read_sources_file : outcome yaml)
    (http_get : str -> option (list Byte.byte))
    (feedparser_parse : list Byte.byte -> outcome parsed)
    (dateutil_parse : str -> option datetime) (str_lower : str -> str)
    (clocks : nat -> readings) (sources : list Source.t) :
  _load_sources read_sources_file = Returned sources ->
  Forall named_unless_rss sources ->
  fetch_all_feeds read_sources_file http_get feedparser_parse dateutil_parse
                  str_lower clocks =
  Returned (contributions http_get feedparser_parse dateutil_parse str_lower
                          clocks 0 sources).
Proof.
  intros Hload Hnamed. unfold fetch_all_feeds. rewrite Hload.
  destruct (make_tasks_named http_get feedparser_parse dateutil_parse
              str_lower clocks sources 0 Hnamed) as (tasks & E & X).
  rewrite E. unfold gather. now rewrite X.
Qed.

(** C6, as the code has it: once the source list is loaded, and every
    source that is not of type rss has a name, the aggregate fetch
    returns, whatever the network and the parser do; its result is
    made of what each source adds, in order, and what a source adds is
    not changed by the sources before and after it.  A source that is
    not of type rss adds nothing; so does one whose request fails,
    whose task raises (the parser raising, a missing name), or whose
    parse gives no entry; a body from which the parser reads entries
    adds the items of those entries, whether it is flagged as
    malformed or not. *)
Theorem fetch_all_feeds_never_raises (read_sources_file : outcome yaml)
    (http_get : str -> option (list Byte.byte))
    (feedparser_parse : list Byte.byte -> outcome parsed)
    (dateutil_parse : str -> option datetime) (str_lower : str -> str)
    (clocks : nat -> readings) (sources : list Source.t) :
  _load_sources read_sources_file = Returned sources ->
  Forall named_unless_rss sources ->
  fetch_all_feeds read_sources_file http_get feedparser_parse dateutil_parse
                  str_lower clocks =
  Returned (contributions http_get feedparser_parse dateutil_parse str_lower
                          clocks 0 sources) /\
  (forall before s after,
      sources = before ++ s :: after ->
      contributions http_get feedparser_parse dateutil_parse str_lower clocks
                    0 sources =
      contributions http_get feedparser_parse dateutil_parse str_lower clocks
                    0 before ++
      contribution http_get feedparser_parse dateutil_parse str_lower clocks
                   (length before) s ++
      contributions http_get feedparser_parse dateutil_parse str_lower clocks
                    (S (length before)) after) /\
  (forall i s,
      (is_rss s = false ->
       contribution http_get feedparser_parse dateutil_parse str_lower clocks
                    i s = []) /\
      (request_fails http_get s ->
       contribution http_get feedparser_parse dateutil_parse str_lower clocks
                    i s = []) /\
      (Source.name s = None ->
       contribution http_get feedparser_parse dateutil_parse str_lower clocks
                    i s = []) /\
      (forall u raw exc,
          Source.url s = Some u -> http_get u = Some raw ->
          feedparser_parse raw = Raised exc ->
          contribution http_get feedparser_parse dateutil_parse str_lower
                       clocks i s = []) /\
      (forall u raw feed,
          Source.url s = Some u -> http_get u = Some raw ->
          feedparser_parse raw = Returned feed ->
          entries feed = [] ->
          contribution http_get feedparser_parse dateutil_parse str_lower
                       clocks i s = []) /\
      (forall u name raw feed,
          is_rss s = true ->
          Source.url s = Some u -> Source.name s = Some name ->
          http_get u = Some raw ->
          feedparser_parse raw = Returned feed ->
          entries feed <> [] ->
          contribution http_get feedparser_parse dateutil_parse str_lower
                       clocks i s =
          normalize_entries dateutil_parse str_lower name
            (get_default (Source.category s) [])
            (isoformat (utcnow (at_start (clocks i))))
            (str_lower (get_default (Source.filter_keyword s) []))
            (at_entry (clocks i)) 0 (entries feed))).
Proof.
  intros Hload Hnamed. split; [|split].
  - now apply fetch_all_feeds_run.
  - intros before s after ->.
    apply (contributions_app _ _ _ _ _ before s after 0).
  - intros i s. unfold contribution, _fetch_rss, request_fails.
    repeat split.
    + now intros ->.
    + destruct (is_rss s); [|reflexivity].
      destruct (Source.url s) as [u|]; [|reflexivity].
      intros ->. now destruct (Source.name s).
    + intros ->. destruct (is_rss s); [|reflexivity].
      now destruct (Source.url s).
    + intros u raw exc -> Hg Hp. destruct (is_rss s); [|reflexivity].
      destruct (Source.name s); [|reflexivity]. now rewrite Hg, Hp.
    + intros u raw feed -> Hg Hp He. destruct (is_rss s); [|reflexivity].
      destruct (Source.name s); [|reflexivity]. rewrite Hg, Hp, He.
      now destruct (bozo feed).
    + intros u name raw feed -> -> -> Hg Hp He. rewrite Hg, Hp.
      assert (E : (length (entries feed) =? 0)%nat = false).
      { apply Nat.eqb_neq. intros H. apply He.
        now apply length_zero_iff_nil. }
      rewrite E, andb_false_r. reflexivity.
Qed.

(** Seven sources: one times out, one is a scraper, one of an unknown
    type, one makes the parser raise, one has a flagged body with no
    entry, one has no name; the two entries of the last one are all
    there. *)
Lemma fetch_all_feeds_never_raises_witness :
  fetch_all_feeds (SampleFeed.sources_file SampleFeed.mixed)
    SampleFeed.http_get SampleFeed.feedparser_parse SampleFeed.parse_plain
    SampleFeed.ascii_lower SampleFeed.clocks =
  Returned
    [mkItem (py "Ransomware attack hits hospital") (py "https://n.example/a")
            (py "Wards closed.") (py "2024-06-01T12:00:00+00:00")
            (py "Feed") (py "news") (py "2024-06-01T12:00:00+00:00");
     mkItem (py "Phishing campaign targets bank") (py "https://n.example/a")
            (py "Customers warned.") (py "2024-06-01T12:00:00+00:00")
            (py "Feed") (py "news") (py "2024-06-01T12:00:00+00:00")].
Proof.
  refine (eq_trans (proj1 (fetch_all_feeds_never_raises
            (SampleFeed.sources_file SampleFeed.mixed)
            SampleFeed.http_get SampleFeed.feedparser_parse
            SampleFeed.parse_plain SampleFeed.ascii_lower SampleFeed.clocks
            SampleFeed.mixed eq_refl _)) _).
  - repeat constructor; intros H;
      first [vm_compute in H; discriminate H | vm_compute; discriminate].
  - vm_compute. reflexivity.
Defined.

(** C6 as worded fails: the body of "sloppy" is flagged as malformed
    and the two entries the parser read from it are emitted. *)
Lemma malformed_body_gives_nothing_fails :
  ~ malformed_body_gives_nothing SampleFeed.http_get
      SampleFeed.feedparser_parse SampleFeed.parse_plain
      SampleFeed.ascii_lower SampleFeed.clocks 0
      (SampleFeed.source "https://sloppy.example/rss" None None).
Proof.
  intros H.
  specialize (H (py "https://sloppy.example/rss") (SampleFeed.body "sloppy")
                (mkParsed true SampleFeed.ransomware_entries)
                eq_refl eq_refl eq_refl eq_refl).
  vm_compute in H. discriminate H.
Qed.

(** A body the parser flags but reads entries from is not a failed
    parse: its entries are emitted. *)
Lemma flagged_feed_with_entries :
  length (contribution SampleFeed.http_get SampleFeed.feedparser_parse
            SampleFeed.parse_plain SampleFeed.ascii_lower SampleFeed.clocks 0
            (SampleFeed.source "https://sloppy.example/rss" None None)) = 2.
Proof. vm_compute. reflexivity. Qed.

(** Without [return_exceptions] the failure of one task would be that
    of the whole call. *)
Lemma gather_plain_raises (exc : str) (items : list NewsItem) :
  gather false [Returned items; Raised exc] = Raised exc.
Proof. reflexivity. Qed.

(** * Further properties of the store *)

Lemma existsb_str_In (u : str) (l : list str) :
  existsb (str_eqb u) l = true <-> In u l.
Proof.
  rewrite existsb_exists. split.
  - intros (x & Hx & E). apply str_eqb_eq in E. now subst.
  - intros H. exists u. split; [exact H | apply str_eqb_refl].
Qed.

Lemma find_url_Some_In (u : str) (rows : list NewsItem) (r : NewsItem) :
  find_url u rows = Some r -> In u (map url rows).
Proof.
  intros H.
  destruct (in_dec str_eq_dec u (map url rows)) as [Hin|Hin]; [exact Hin|].
  apply find_url_None in Hin. congruence.
Qed.

(** The urls of the table after a batch: those before, in place, then
    each url of the batch that was not stored, once. *)
Lemma urls_apply_added (items rows : list NewsItem) :
  exists added,
    map url (apply_items items rows) = map url rows ++ added /\
    NoDup added /\
    (forall u, In u added <-> In u (map url items) /\ ~ In u (map url rows)).
Proof.
  unfold apply_items.
  revert rows; induction items as [|i items IH]; intros rows; cbn [fold_left map].
  - exists []. rewrite app_nil_r. split; [reflexivity|].
    split; [constructor|]. intros u. simpl. tauto.
  - destruct (IH (insert_on_conflict i rows)) as (added & E & ND & HIn).
    rewrite urls_insert in E.
    assert (HIn' : forall u, In u added <->
                             In u (map url items) /\
                             ~ In u (match find_url (url i) rows with
                                     | Some _ => map url rows
                                     | None => map url rows ++ [url i]
                                     end)).
    { intros u. rewrite <- urls_insert. apply HIn. }
    clear HIn. destruct (find_url (url i) rows) eqn:F.
    + apply find_url_Some_In in F.
      exists added. split; [exact E|]. split; [exact ND|].
      intros u. rewrite HIn'. simpl. split.
      * intros [H1 H2]. auto.
      * intros [[<-|H1] H2]; [contradiction | auto].
    + apply find_url_None in F. exists (url i :: added). split.
      * rewrite E, <- app_assoc. reflexivity.
      * split.
        -- constructor; [|exact ND]. intros H. apply HIn' in H.
           destruct H as [_ H]. apply H, in_or_app. right. now left.
        -- intros u. simpl. rewrite HIn', in_app_iff. simpl. split.
           ++ intros [<-|[H1 H2]]; [split; [now left | exact F]|].
              split; [now right|]. intros H. apply H2. now left.
           ++ intros [[<-|H1] H2]; [now left|].
              destruct (str_eq_dec (url i) u) as [->|Hne]; [now left|].
              right. split; [exact H1|].
              intros [H|[H|[]]]; [contradiction | congruence].
Qed.

Lemma length_apply_bounds (items rows : list NewsItem) :
  length rows <= length (apply_items items rows) <= length rows + length items.
Proof.
  unfold apply_items.
  revert rows; induction items as [|i items IH]; intros rows; cbn [fold_left length].
  - lia.
  - specialize (IH (insert_on_conflict i rows)).
    rewrite length_insert in IH.
    destruct (find_url (url i) rows); lia.
Qed.

(** X1: the count [upsert_news_items] returns is never negative and
    never more than the number of items of the batch. *)
Theorem upsert_count_bounds (items : list NewsItem) (s : db) :
  (0 <= fst (upsert_news_items items s) <= Z.of_nat (length items))%Z.
Proof.
  rewrite upsert_count.
  pose proof (length_apply_bounds (written items) (news_items s)).
  pose proof (filter_length_le bindable_item items). unfold written in *. lia.
Qed.

Lemma length_apply_new_urls (items rows : list NewsItem) :
  length (apply_items items rows) = length rows + length (new_urls items rows).
Proof.
  destruct (urls_apply_added items rows) as (added & E & ND & HIn).
  apply (f_equal (@length str)) in E.
  rewrite length_app, !length_map in E.
  assert (P : Permutation added (new_urls items rows)).
  { apply NoDup_Permutation; [exact ND | apply NoDup_nodup|].
    intros u. unfold new_urls.
    rewrite nodup_In, filter_In, HIn, negb_true_iff.
    rewrite <- (existsb_str_In u (map url rows)).
    destruct (existsb (str_eqb u) (map url rows));
      split; intros [H1 H2]; split; auto; congruence. }
  rewrite <- (Permutation_length P). exact E.
Qed.

(** X2: the count returned is the number of distinct urls, among the
    items of the batch that are written (their text can be bound),
    that were not stored before the call. *)
Theorem upsert_counts_new_urls (items : list NewsItem) (s : db) :
  fst (upsert_news_items items s) =
  Z.of_nat (length (new_urls (written items) (news_items s))).
Proof.
  rewrite upsert_count, length_apply_new_urls. lia.
Qed.

(** X3: a call leaves the record of every url that is not in the batch
    as it was, and removes no url from the store. *)
Theorem upsert_frame (items : list NewsItem) (s : db) (u : str) :
  ((forall i, In i items -> url i <> u) ->
   find_url u (news_items (snd (upsert_news_items items s))) =
   find_url u (news_items s)) /\
  (find_url u (news_items s) <> None ->
   find_url u (news_items (snd (upsert_news_items items s))) <> None).
Proof.
  rewrite upsert_table. split.
  - intros H. rewrite find_url_apply.
    assert (E : forall l, (forall i, In i l -> url i <> u) ->
                          supplied u l = []).
    { unfold supplied. induction l as [|i l IH]; intros Hl; [reflexivity|].
      cbn [filter].
      assert (Hi : str_eqb (url i) u = false)
        by (apply str_eqb_neq, Hl; now left).
      rewrite Hi. apply IH. intros j Hj. apply Hl. now right. }
    rewrite E; [reflexivity|].
    intros i Hi. apply filter_In in Hi. now apply H.
  - intros H Hn. apply find_url_None in Hn. apply Hn.
    apply urls_apply_incl.
    destruct (find_url u (news_items s)) eqn:F; [|congruence].
    now apply find_url_Some_In in F.
Qed.

Lemma upsert_frame_witness :
  find_url (py "https://a.example/2")
    (news_items (snd (upsert_news_items
                        [Sample.second_write; Sample.empty_write]
                        (run_calls [[Sample.first_write; Sample.other_url]]
                                   empty_db)))) =
  Some Sample.other_url.
Proof.
  refine (eq_trans (proj1 (upsert_frame
            [Sample.second_write; Sample.empty_write]
            (run_calls [[Sample.first_write; Sample.other_url]] empty_db)
            (py "https://a.example/2")) _) eq_refl).
  intros i [<-|[<-|[]]]; vm_compute; discriminate.
Defined.

(** What a run of statements for one url makes of a stored record. *)
Lemma merge_fold_some (l : list NewsItem) (r : NewsItem) :
  fold_left merge_one l (Some r) =
  Some (mkItem (title r) (url r) (merged_summary (Some r) l)
               (published_at r) (source_name r) (category r)
               (match last_error l with
                | Some i => fetched_at i
                | None => fetched_at r
                end)).
Proof.
  induction l as [|x l IH] using rev_ind.
  - destruct r. reflexivity.
  - rewrite fold_left_app, IH, last_error_snoc. cbn [fold_left].
    unfold merge_one, do_update, merged_summary, last_nonempty.
    rewrite map_app, rev_app_distr.
    cbn [map rev app find title url summary published_at source_name
         category fetched_at].
    now destruct (truthy (summary x)).
Qed.

Lemma merge_fold_idem (l : list NewsItem) (acc : option NewsItem) :
  fold_left merge_one l (fold_left merge_one l acc) = fold_left merge_one l acc.
Proof.
  destruct acc as [r|].
  - rewrite (merge_fold_some l r), merge_fold_some.
    cbn [title url summary published_at source_name category fetched_at].
    f_equal. f_equal.
    + unfold merged_summary. now destruct (last_nonempty (map summary l)).
    + now destruct (last_error l).
  - destruct l as [|x l]; [reflexivity|]. cbn [fold_left].
    change (merge_one None x) with (Some x).
    rewrite (merge_fold_some l x).
    match goal with
    | |- context [merge_one (Some ?r) x] =>
        change (merge_one (Some r) x) with (Some (do_update r x))
    end.
    rewrite merge_fold_some.
    cbn [do_update title url summary published_at source_name category
         fetched_at].
    f_equal. f_equal.
    unfold merged_summary, do_update. cbn [summary].
    destruct (last_nonempty (map summary l)); [reflexivity|].
    now destruct (truthy (summary x)).
Qed.

(** X4: first write wins over any sequence of calls: the title, url,
    published_at, source_name and category stored for a url stay what
    they are, whatever is upserted later. *)
Theorem first_write_wins (s : db) (u : str) (R : NewsItem)
    (calls : list (list NewsItem)) :
  find_url u (news_items s) = Some R ->
  exists R',
    find_url u (news_items (run_calls calls s)) = Some R' /\
    title R' = title R /\ url R' = url R /\
    published_at R' = published_at R /\
    source_name R' = source_name R /\ category R' = category R.
Proof.
  intros H. rewrite run_calls_table, find_url_apply, H, merge_fold_some.
  eexists. split; [reflexivity|]. repeat split.
Qed.

Lemma first_write_wins_witness :
  exists R',
    find_url (py "https://a.example/1")
      (news_items (run_calls [[Sample.second_write]; [Sample.empty_write]]
                     (run_calls [[Sample.first_write]] empty_db))) = Some R' /\
    title R' = py "Patch Tuesday" /\ url R' = py "https://a.example/1" /\
    published_at R' = py "2024-01-01T00:00:00+00:00" /\
    source_name R' = py "KrCERT" /\ category R' = py "advisory".
Proof.
  exact (first_write_wins (run_calls [[Sample.first_write]] empty_db)
           (py "https://a.example/1") Sample.first_write
           [[Sample.second_write]; [Sample.empty_write]] eq_refl).
Defined.

(** X5: a url that is not stored is stored by the call with the title,
    url, published_at, source_name and category of the first item of
    the batch that carries it and can be written; when no other
    written item of the batch carries it, the record found afterwards
    is that item. *)
Theorem insert_then_lookup (s : db) (I : NewsItem) (rest items : list NewsItem) :
  find_url (url I) (news_items s) = None ->
  supplied (url I) (written items) = I :: rest ->
  exists R,
    find_url (url I) (news_items (snd (upsert_news_items items s))) = Some R /\
    title R = title I /\ url R = url I /\
    published_at R = published_at I /\
    source_name R = source_name I /\ category R = category I /\
    (rest = [] -> R = I).
Proof.
  intros Hn Hs. rewrite upsert_table, find_url_apply, Hn, Hs.
  cbn [fold_left]. change (merge_one None I) with (Some I).
  rewrite merge_fold_some.
  eexists. split; [reflexivity|]. repeat split.
  intros ->. destruct I. reflexivity.
Qed.

Lemma insert_then_lookup_witness :
  exists R,
    find_url (url Sample.other_url)
      (news_items (snd (upsert_news_items
                          [Sample.second_write; Sample.unbindable;
                           Sample.other_url]
                          (run_calls [[Sample.first_write]] empty_db))))
    = Some R /\ R = Sample.other_url.
Proof.
  destruct (insert_then_lookup (run_calls [[Sample.first_write]] empty_db)
              Sample.other_url []
              [Sample.second_write; Sample.unbindable; Sample.other_url]
              eq_refl eq_refl) as (R & H & _ & _ & _ & _ & _ & E).
  exists R. split; [exact H | exact (E eq_refl)].
Defined.

Lemma find_url_cons (u : str) (r : NewsItem) (rows : list NewsItem) :
  find_url u (r :: rows) =
  if str_eqb (url r) u then Some r else find_url u rows.
Proof. reflexivity. Qed.

Lemma urls_apply_present (items rows : list NewsItem) :
  (forall i, In i items -> In (url i) (map url rows)) ->
  map url (apply_items items rows) = map url rows.
Proof.
  unfold apply_items.
  revert rows; induction items as [|j items IH]; intros rows H; cbn [fold_left].
  - reflexivity.
  - assert (Hj : In (url j) (map url rows)) by (apply H; now left).
    assert (E : map url (insert_on_conflict j rows) = map url rows).
    { rewrite urls_insert. destruct (find_url (url j) rows) eqn:F;
        [reflexivity|]. apply find_url_None in F. contradiction. }
    rewrite IH; [exact E|].
    intros i Hi. rewrite E. apply H. now right.
Qed.

(** Two tables with the same urls in the same places, no url twice,
    and the same record under every url are the same table. *)
Lemma rows_eq_by_lookup (l1 l2 : list NewsItem) :
  NoDup (map url l1) ->
  map url l1 = map url l2 ->
  (forall u, find_url u l1 = find_url u l2) ->
  l1 = l2.
Proof.
  revert l2; induction l1 as [|a l1 IH]; intros [|b l2]; cbn [map];
    try discriminate; [reflexivity|].
  intros ND E H. injection E as Eab E.
  apply NoDup_cons_iff in ND. destruct ND as [Ha ND].
  pose proof (H (url a)) as Hu. rewrite !find_url_cons in Hu.
  rewrite <- Eab, str_eqb_refl in Hu. injection Hu as <-.
  f_equal. apply IH; [exact ND | exact E|].
  intros u. specialize (H u). rewrite !find_url_cons in H.
  destruct (str_eqb (url a) u) eqn:Eu; [|exact H].
  apply str_eqb_eq in Eu. subst u.
  assert (H1 : find_url (url a) l1 = None) by now apply find_url_None.
  assert (H2 : find_url (url a) l2 = None)
    by (apply find_url_None; now rewrite <- E).
  congruence.
Qed.

(** X6: on a table that holds no url twice, upserting a batch a second
    time changes nothing: the table after two calls with the batch is
    the table after one. *)
Theorem upsert_twice_same_table (items : list NewsItem) (s : db) :
  NoDup (map url (news_items s)) ->
  news_items (snd (upsert_news_items items (snd (upsert_news_items items s)))) =
  news_items (snd (upsert_news_items items s)).
Proof.
  intros ND. rewrite !upsert_table.
  set (rows := news_items s) in *.
  generalize (written items). clear items. intros items.
  assert (E : map url (apply_items items (apply_items items rows)) =
              map url (apply_items items rows)).
  { apply urls_apply_present. intros i Hi. now apply urls_apply_all. }
  symmetry. apply rows_eq_by_lookup.
  - now apply NoDup_apply.
  - now rewrite E.
  - intros u. rewrite !find_url_apply. symmetry. apply merge_fold_idem.
Qed.

Lemma upsert_twice_same_table_witness :
  news_items (snd (upsert_news_items
                     [Sample.first_write; Sample.other_url; Sample.empty_write]
                     (snd (upsert_news_items
                             [Sample.first_write; Sample.other_url;
                              Sample.empty_write] empty_db)))) =
  news_items (snd (upsert_news_items
                     [Sample.first_write; Sample.other_url; Sample.empty_write]
                     empty_db)).
Proof.
  apply (upsert_twice_same_table
           [Sample.first_write; Sample.other_url; Sample.empty_write]
           empty_db).
  constructor.
Defined.

Lemma insert_keeps_place (i : NewsItem) (rows : list NewsItem) (k : nat)
    (r : NewsItem) :
  nth_error rows k = Some r ->
  exists r', nth_error (insert_on_conflict i rows) k = Some r' /\
             same_identity r r'.
Proof.
  revert k; induction rows as [|a rows IH]; intros k H.
  - destruct k; discriminate.
  - cbn [insert_on_conflict]. destruct (str_eqb (url a) (url i)).
    + destruct k as [|k]; cbn [nth_error] in *.
      * injection H as <-. eexists. split; [reflexivity|].
        unfold same_identity. repeat split.
      * exists r. split; [exact H|]. unfold same_identity. repeat split.
    + destruct k as [|k]; cbn [nth_error] in *.
      * exists r. split; [exact H|]. unfold same_identity. repeat split.
      * now apply IH.
Qed.

Lemma apply_keeps_place (items rows : list NewsItem) (k : nat) (r : NewsItem) :
  nth_error rows k = Some r ->
  exists r', nth_error (apply_items items rows) k = Some r' /\
             same_identity r r'.
Proof.
  unfold apply_items.
  revert rows r; induction items as [|i items IH]; intros rows r H;
    cbn [fold_left].
  - exists r. split; [exact H|]. unfold same_identity. repeat split.
  - destruct (insert_keeps_place i rows k r H) as (r1 & H1 & S1).
    destruct (IH _ _ H1) as (r2 & H2 & S2).
    exists r2. split; [exact H2|].
    unfold same_identity in *. intuition congruence.
Qed.

(** X7: rows are never removed or moved: the row at a position is,
    after any sequence of calls, still at that position with the same
    title, url, published_at, source_name and category. *)
Theorem rows_keep_place (s : db) (calls : list (list NewsItem)) (k : nat)
    (r : NewsItem) :
  nth_error (news_items s) k = Some r ->
  exists r', nth_error (news_items (run_calls calls s)) k = Some r' /\
             same_identity r r'.
Proof.
  intros H. rewrite run_calls_table. now apply apply_keeps_place.
Qed.

Lemma rows_keep_place_witness :
  exists r',
    nth_error (news_items
                 (run_calls [[Sample.other_url; Sample.second_write];
                             [Sample.empty_write]]
                            (run_calls [[Sample.first_write]] empty_db))) 0
    = Some r' /\ same_identity Sample.first_write r'.
Proof.
  exact (rows_keep_place (run_calls [[Sample.first_write]] empty_db)
           [[Sample.other_url; Sample.second_write]; [Sample.empty_write]]
           0 Sample.first_write eq_refl).
Defined.


(** X22: an item whose text cannot be bound is skipped and the rest of
    the batch is written as if it were not there: the table and the
    count are those of the call with the batch of the items that can
    be written. *)
Theorem upsert_skips_unbindable (items : list NewsItem) (s : db) :
  news_items (snd (upsert_news_items items s)) =
  news_items (snd (upsert_news_items (written items) s)) /\
  fst (upsert_news_items items s) =
  fst (upsert_news_items (written items) s) /\
  (forall I, bindable_item I = false ->
             news_items (snd (upsert_news_items [I] s)) = news_items s).
Proof.
  assert (W : written (written items) = written items).
  { unfold written. induction items as [|i items IH]; [reflexivity|].
    cbn [filter]. destruct (bindable_item i) eqn:E; [|exact IH].
    cbn [filter]. now rewrite E, IH. }
  rewrite !upsert_count, !upsert_table, W. repeat split.
  intros I H. rewrite upsert_table. unfold written. cbn [filter].
  now rewrite H.
Qed.

Lemma upsert_skips_unbindable_witness :
  news_items (snd (upsert_news_items [Sample.unbindable]
                     (mkDb Sample.five []))) = Sample.five.
Proof.
  exact (proj2 (proj2 (upsert_skips_unbindable [] (mkDb Sample.five [])))
               Sample.unbindable eq_refl).
Defined.

(** * Further properties of the read boundary *)

Lemma firstn_more {A} (a b : nat) (l : list A) :
  firstn a l ++ firstn b (skipn a l) = firstn (a + b) l.
Proof.
  revert l; induction a as [|a IH]; intros l; [reflexivity|].
  destruct l as [|x l]; cbn [firstn skipn Nat.add app].
  - now rewrite firstn_nil.
  - now rewrite IH.
Qed.

(** X8: consecutive pages tile the listing: with limits and offsets
    that are not negative and fit an SQLite INTEGER, the three reads
    return, and the page of [l1] rows at offset [o] followed by the
    page of [l2] rows at offset [o + l1] is the page of [l1 + l2] rows
    at offset [o]. *)
Theorem get_news_pages_tile (s : db) (l1 l2 o : Z) :
  (0 <= l1)%Z -> (0 <= l2)%Z -> (0 <= o)%Z ->
  (l1 + l2 <= INT64_MAX)%Z -> (o + l1 <= INT64_MAX)%Z ->
  exists p1 p2 p,
    fst (get_news l1 o s) = Returned p1 /\
    fst (get_news l2 (o + l1) (snd (get_news l1 o s))) = Returned p2 /\
    fst (get_news (l1 + l2) o s) = Returned p /\
    p1 ++ p2 = p.
Proof.
  intros H1 H2 Ho Hl Hol.
  rewrite !get_news_run
    by (apply fits_int64_spec; unfold INT64_MAX in *; lia).
  cbn [fst snd news_items].
  do 3 eexists. do 3 (split; [reflexivity|]).
  unfold limit_offset.
  assert (E1 : (l1 <? 0)%Z = false) by (apply Z.ltb_ge; lia).
  assert (E2 : (l2 <? 0)%Z = false) by (apply Z.ltb_ge; lia).
  assert (E3 : (l1 + l2 <? 0)%Z = false) by (apply Z.ltb_ge; lia).
  rewrite E1, E2, E3.
  rewrite !Z2Nat.inj_add by lia.
  rewrite (Nat.add_comm (Z.to_nat o) (Z.to_nat l1)), <- skipn_skipn.
  apply firstn_more.
Qed.

Lemma get_news_pages_tile_witness :
  exists p1 p2 p,
    fst (get_news 2 1 (mkDb Sample.five [])) = Returned p1 /\
    fst (get_news 3 (1 + 2) (snd (get_news 2 1 (mkDb Sample.five []))))
    = Returned p2 /\
    fst (get_news (2 + 3) 1 (mkDb Sample.five [])) = Returned p /\
    p1 ++ p2 = p.
Proof.
  apply (get_news_pages_tile (mkDb Sample.five []) 2 3 1);
    unfold INT64_MAX; lia.
Defined.

Lemma limit_offset_split (limit offset : Z) (rows : list NewsItem) :
  exists before after, rows = before ++ limit_offset limit offset rows ++ after.
Proof.
  unfold limit_offset.
  exists (firstn (Z.to_nat offset) rows).
  destruct (limit <? 0)%Z.
  - exists []. now rewrite app_nil_r, firstn_skipn.
  - exists (skipn (Z.to_nat limit) (skipn (Z.to_nat offset) rows)).
    now rewrite !firstn_skipn.
Qed.

(** X9: for a limit and an offset that fit an SQLite INTEGER, negative
    ones included, [get_news] returns a page that holds stored rows
    only, repeats no url when the table does not, and is empty when the
    offset is at or past the number of rows; when the limit or the
    offset does not fit, the call raises OverflowError and the table is
    as before. *)
Theorem get_news_within_store (s : db) (limit offset : Z) :
  ((- INT64_MAX - 1 <= limit <= INT64_MAX)%Z ->
   (- INT64_MAX - 1 <= offset <= INT64_MAX)%Z ->
   exists page,
     fst (get_news limit offset s) = Returned page /\
     (forall r, In r page -> In r (news_items s)) /\
     (NoDup (map url (news_items s)) -> NoDup (map url page)) /\
     ((Z.of_nat (length (news_items s)) <= offset)%Z -> page = [])) /\
  (~ ((- INT64_MAX - 1 <= limit <= INT64_MAX)%Z /\
      (- INT64_MAX - 1 <= offset <= INT64_MAX)%Z) ->
   fst (get_news limit offset s) = Raised (py "OverflowError") /\
   news_items (snd (get_news limit offset s)) = news_items s).
Proof.
  split.
  - intros Hl Ho.
    rewrite get_news_run by (now apply fits_int64_spec). cbn [fst].
    eexists. split; [reflexivity|].
    destruct (limit_offset_split limit offset (ordered (news_items s)))
      as (before & after & E).
    split; [|split].
    + intros r Hr.
      apply (Permutation_in r (ordered_perm (news_items s))).
      rewrite E. apply in_or_app. right. apply in_or_app. now left.
    + intros ND.
      assert (ND' : NoDup (map url (ordered (news_items s)))).
      { apply (Permutation_NoDup
                 (Permutation_map url (Permutation_sym
                                         (ordered_perm (news_items s))))).
        exact ND. }
      rewrite E, !map_app in ND'.
      apply NoDup_app_remove_l in ND'. now apply NoDup_app_remove_r in ND'.
    + intros H. unfold limit_offset.
      assert (Es : skipn (Z.to_nat offset) (ordered (news_items s)) = []).
      { apply skipn_all2.
        rewrite (Permutation_length (ordered_perm (news_items s))). lia. }
      rewrite Es. destruct (limit <? 0)%Z; [reflexivity | apply firstn_nil].
  - intros H.
    assert (F : fits_int64 limit && fits_int64 offset = false).
    { destruct (fits_int64 limit) eqn:Fl;
        destruct (fits_int64 offset) eqn:Fo; try reflexivity.
      exfalso. apply H. split; now apply fits_int64_spec. }
    rewrite get_news_raises by exact F. now split.
Qed.

Lemma get_news_within_store_witness :
  (exists page,
     fst (get_news (-1) 5 (mkDb Sample.five [])) = Returned page /\
     page = []) /\
  fst (get_news 9223372036854775808 0 (mkDb Sample.five []))
  = Raised (py "OverflowError").
Proof.
  split.
  - destruct (proj1 (get_news_within_store (mkDb Sample.five []) (-1) 5))
      as (page & E & _ & _ & H); [unfold INT64_MAX; lia ..|].
    exists page. split; [exact E|]. apply H. simpl. lia.
  - apply (proj2 (get_news_within_store (mkDb Sample.five [])
                    9223372036854775808 0)).
    unfold INT64_MAX. lia.
Defined.

(** * Further properties of the feed parser *)

Lemma normalize_entry_eq (dateutil_parse : str -> option datetime)
    (str_lower : str -> str)
    (name category fetched_at kw : str) (now : datetime) (entry : Entry.t) :
  normalize_entry dateutil_parse str_lower name category fetched_at kw now
                  entry =
  if kept str_lower kw entry then
    Some (mkItem (title_of entry) (item_url_of entry) (summary_of entry)
                 (_normalize_date dateutil_parse now (raw_date entry))
                 name category fetched_at)
  else None.
Proof.
  unfold normalize_entry, kept.
  destruct (truthy (item_url_of entry)); cbn [negb andb]; [|reflexivity].
  destruct (truthy kw); cbn [negb andb orb]; [|reflexivity].
  now destruct (contains kw _).
Qed.

Lemma Forall_normalize_entries (dateutil_parse : str -> option datetime)
    (str_lower : str -> str)
    (name category fetched_at kw : str) (clock : nat -> datetime)
    (P : NewsItem -> Prop) (es : list Entry.t) (k : nat) :
  (forall now e item,
      In e es ->
      normalize_entry dateutil_parse str_lower name category fetched_at kw
                      now e
      = Some item -> P item) ->
  Forall P (normalize_entries dateutil_parse str_lower name category
                              fetched_at kw clock k es).
Proof.
  revert k; induction es as [|e es IH]; intros k H; cbn [normalize_entries].
  - constructor.
  - destruct (normalize_entry _ _ _ _ _ _ (clock k) e) as [item|] eqn:E.
    + constructor.
      * apply (H (clock k) e item); [now left | exact E].
      * apply IH. intros now e' item' Hin. apply H. now right.
    + apply IH. intros now e' item' Hin. apply H. now right.
Qed.

Lemma normalize_date_nonempty (dateutil_parse : str -> option datetime)
    (now : datetime) (raw : option str) :
  _normalize_date dateutil_parse now raw <> [].
Proof.
  unfold _normalize_date.
  destruct raw as [r|]; [|apply isoformat_nonempty].
  destruct (negb (truthy r)); [apply isoformat_nonempty|].
  destruct (dateutil_parse r) as [dt|]; [|apply isoformat_nonempty].
  destruct (tzinfo dt); apply isoformat_nonempty.
Qed.

Lemma clean_summary_any (t : str) (n : nat) :
  _clean_summary (Some t) n =
  firstn n (strip (re_sub_tags t)) ++
  (if (n <? length (strip (re_sub_tags t)))%nat then ELLIPSIS else []).
Proof.
  unfold _clean_summary. destruct (truthy t) eqn:E; [reflexivity|].
  apply truthy_false in E. subst t.
  change (strip (re_sub_tags [])) with (@nil N).
  now rewrite firstn_nil.
Qed.

Lemma clean_summary_shape (t : str) (n : nat) :
  length (_clean_summary (Some t) n) <= S n /\
  no_tag (_clean_summary (Some t) n) = true.
Proof.
  rewrite clean_summary_any.
  set (body := strip (re_sub_tags t)).
  assert (Hb : no_tag body = true) by apply strip_no_tag, sub_no_tag.
  assert (Hf : no_tag (firstn n body) = true).
  { apply (no_tag_prefix _ (skipn n body)). now rewrite firstn_skipn. }
  split.
  - rewrite length_app, length_firstn.
    destruct (n <? length body)%nat; unfold ELLIPSIS; cbn [length]; lia.
  - destruct (n <? length body)%nat.
    + now apply no_tag_ellipsis.
    + now rewrite app_nil_r.
Qed.

Lemma strip_self_trimmed (s : str) : trimmed (strip s) (strip s).
Proof.
  destruct (strip_trimmed s) as (_ & Hh & Hl).
  split; [|split; assumption].
  exists [], []. rewrite app_nil_r. repeat split; constructor.
Qed.

(** X10: every item [_fetch_rss] returns carries the name of the
    source, its category (empty when the source has none) and the one
    [fetched_at] read when the task began; its url and published_at
    are not empty, its summary has at most 301 code points and no
    match of the tag pattern, and its title has no whitespace around
    it. *)
Theorem fetch_rss_items_shaped
    (http_get : str -> option (list Byte.byte))
    (feedparser_parse : list Byte.byte -> outcome parsed)
    (dateutil_parse : str -> option datetime) (str_lower : str -> str)
    (start : datetime) (clock : nat -> datetime) (source : Source.t)
    (items : list NewsItem) :
  _fetch_rss http_get feedparser_parse dateutil_parse str_lower start clock
             source
  = Returned items ->
  Forall (emitted_by source start) items.
Proof.
  unfold _fetch_rss.
  destruct (Source.url source) as [u|]; [|discriminate].
  destruct (Source.name source) as [name|] eqn:Nm; [|discriminate].
  destruct (http_get u) as [raw|];
    [|intros [= <-]; constructor].
  destruct (feedparser_parse raw) as [feed|exc]; [|discriminate].
  destruct (bozo feed && (length (entries feed) =? 0)%nat);
    intros [= <-]; [constructor|].
  apply Forall_normalize_entries.
  intros now e item _ H. rewrite normalize_entry_eq in H.
  destruct (kept _ _ e) eqn:K; [|discriminate]. injection H as <-.
  unfold kept in K. apply andb_true_iff in K. destruct K as [Ku _].
  unfold emitted_by.
  cbn [title url summary published_at source_name category fetched_at].
  split; [exact Nm|]. repeat split.
  - now apply truthy_true.
  - apply normalize_date_nonempty.
  - apply (clean_summary_shape _ 300).
  - apply no_tag_spec. apply (clean_summary_shape _ 300).
  - apply strip_self_trimmed.
  - apply strip_self_trimmed.
  - apply strip_self_trimmed.
Qed.

Lemma fetch_rss_items_shaped_witness :
  Forall (emitted_by (SampleFeed.source "https://feed.example/rss"
                                        (Some (py "RansomWare")) None)
                     SampleFeed.noon)
    [mkItem (py "Ransomware attack hits hospital")
            (py "https://n.example/a") (py "Wards closed.")
            (py "2024-06-01T12:00:00+00:00") (py "Feed") (py "news")
            (py "2024-06-01T12:00:00+00:00")].
Proof.
  apply (fetch_rss_items_shaped SampleFeed.http_get
           SampleFeed.feedparser_parse SampleFeed.parse_plain
           SampleFeed.ascii_lower SampleFeed.noon
           (fun _ => SampleFeed.noon)).
  vm_compute. reflexivity.
Defined.

Lemma contains_nil (hay : str) : contains [] hay = true.
Proof. destruct hay; reflexivity. Qed.

Lemma normalize_entries_filter (dateutil_parse : str -> option datetime)
    (str_lower : str -> str)
    (name category fetched_at kw : str) (clock : nat -> datetime)
    (es : list Entry.t) (k : nat) :
  normalize_entries dateutil_parse str_lower name category fetched_at kw
                    clock k es =
  filter (item_hit str_lower kw)
         (normalize_entries dateutil_parse str_lower name category fetched_at
                            [] clock k es).
Proof.
  revert k; induction es as [|e es IH]; intros k; cbn [normalize_entries];
    [reflexivity|].
  rewrite !normalize_entry_eq. unfold kept.
  destruct (truthy (item_url_of e)); cbn [andb negb orb truthy str_eqb];
    [|apply IH].
  cbn [filter]. unfold item_hit at 1. cbn [title summary].
  destruct (truthy kw) eqn:Ek; cbn [negb orb].
  - destruct (contains kw (content_to_check str_lower (title_of e)
                                            (summary_of e)));
      cbn iota; [f_equal|]; apply IH.
  - apply truthy_false in Ek. subst kw. rewrite contains_nil.
    cbn iota. f_equal. apply IH.
Qed.

(** X11: a keyword only drops items: what [_fetch_rss] returns for a
    source is what it returns for the same source without its keyword,
    filtered by the keyword test on the emitted title and summary; the
    items kept are unchanged and in the same order.  [str.lower] is the
    one of the environment; of it only that it maps the empty string
    to the empty string is used. *)
Theorem keyword_only_drops
    (http_get : str -> option (list Byte.byte))
    (feedparser_parse : list Byte.byte -> outcome parsed)
    (dateutil_parse : str -> option datetime) (str_lower : str -> str)
    (start : datetime) (clock : nat -> datetime) (source : Source.t) :
  str_lower [] = [] ->
  match _fetch_rss http_get feedparser_parse dateutil_parse str_lower start
                   clock (without_keyword source),
        _fetch_rss http_get feedparser_parse dateutil_parse str_lower start
                   clock source with
  | Returned all, Returned some =>
      some = filter (item_hit str_lower
                       (str_lower
                          (get_default (Source.filter_keyword source) [])))
                    all
  | Raised exc, Raised exc' => exc = exc'
  | _, _ => False
  end.
Proof.
  intros L. unfold _fetch_rss, without_keyword.
  cbn [Source.url Source.name Source.category Source.filter_keyword].
  destruct (Source.url source) as [u|]; [|reflexivity].
  destruct (Source.name source) as [name|]; [|reflexivity].
  destruct (http_get u) as [raw|]; [|reflexivity].
  destruct (feedparser_parse raw) as [feed|exc]; [|reflexivity].
  destruct (bozo feed && (length (entries feed) =? 0)%nat); [reflexivity|].
  cbn [get_default]. rewrite L. apply normalize_entries_filter.
Qed.

Lemma keyword_only_drops_witness :
  _fetch_rss SampleFeed.http_get SampleFeed.feedparser_parse
    SampleFeed.parse_plain SampleFeed.ascii_lower SampleFeed.noon
    (fun _ => SampleFeed.noon)
    (SampleFeed.source "https://feed.example/rss" (Some (py "RansomWare"))
                       None)
  = Returned
      (filter (item_hit SampleFeed.ascii_lower (py "ransomware"))
         [mkItem (py "Ransomware attack hits hospital")
                 (py "https://n.example/a") (py "Wards closed.")
                 (py "2024-06-01T12:00:00+00:00") (py "Feed") (py "news")
                 (py "2024-06-01T12:00:00+00:00");
          mkItem (py "Phishing campaign targets bank")
                 (py "https://n.example/a") (py "Customers warned.")
                 (py "2024-06-01T12:00:00+00:00") (py "Feed") (py "news")
                 (py "2024-06-01T12:00:00+00:00")]).
Proof.
  pose proof (keyword_only_drops SampleFeed.http_get
                SampleFeed.feedparser_parse SampleFeed.parse_plain
                SampleFeed.ascii_lower SampleFeed.noon
                (fun _ => SampleFeed.noon)
                (SampleFeed.source "https://feed.example/rss"
                                   (Some (py "RansomWare")) None)
                eq_refl) as H.
  destruct (_fetch_rss _ _ _ _ _ _
              (without_keyword
                 (SampleFeed.source "https://feed.example/rss"
                                    (Some (py "RansomWare")) None)))
    as [all|exc] eqn:A; [|discriminate A].
  injection A as <-.
  destruct (_fetch_rss _ _ _ _ _ _ _) as [some|exc]; [|destruct H].
  rewrite H. reflexivity.
Defined.

Lemma normalize_entries_kept (dateutil_parse : str -> option datetime)
    (str_lower : str -> str)
    (name category fetched_at kw : str) (clock : nat -> datetime)
    (es : list Entry.t) (k : nat) :
  let items := normalize_entries dateutil_parse str_lower name category
                                 fetched_at kw clock k es in
  map url items = map item_url_of (filter (kept str_lower kw) es) /\
  map title items = map title_of (filter (kept str_lower kw) es) /\
  map summary items = map summary_of (filter (kept str_lower kw) es).
Proof.
  revert k; induction es as [|e es IH]; intros k; cbn [normalize_entries filter].
  - repeat split.
  - rewrite normalize_entry_eq. destruct (kept str_lower kw e).
    + cbn [map url title summary].
      destruct (IH (S k)) as (H1 & H2 & H3). cbn zeta in *.
      now rewrite H1, H2, H3.
    + apply IH.
Qed.

(** X12: for a source with a url and a name, when the request
    succeeds and the parse returns, [_fetch_rss] returns one item for
    each entry it keeps (an entry with a link or id that passes the
    keyword test), in feed order, with the url, title and summary
    derived from that entry; entries that share a url are not
    merged. *)
Theorem fetch_rss_in_feed_order
    (http_get : str -> option (list Byte.byte))
    (feedparser_parse : list Byte.byte -> outcome parsed)
    (dateutil_parse : str -> option datetime) (str_lower : str -> str)
    (start : datetime) (clock : nat -> datetime) (source : Source.t)
    (u name : str) (raw : list Byte.byte) (feed : parsed) :
  Source.url source = Some u ->
  Source.name source = Some name ->
  http_get u = Some raw ->
  feedparser_parse raw = Returned feed ->
  let kw := str_lower (get_default (Source.filter_keyword source) []) in
  exists items,
    _fetch_rss http_get feedparser_parse dateutil_parse str_lower start clock
               source
    = Returned items /\
    map url items = map item_url_of (filter (kept str_lower kw)
                                            (entries feed)) /\
    map title items = map title_of (filter (kept str_lower kw)
                                           (entries feed)) /\
    map summary items = map summary_of (filter (kept str_lower kw)
                                               (entries feed)) /\
    length items <= length (entries feed).
Proof.
  intros Hu Hn Hg Hp kw. unfold _fetch_rss. rewrite Hu, Hn, Hg, Hp.
  destruct (bozo feed && (length (entries feed) =? 0)%nat) eqn:B.
  - apply andb_true_iff in B. destruct B as [_ B].
    apply Nat.eqb_eq in B. apply length_zero_iff_nil in B. rewrite B.
    exists []. repeat split. cbn. lia.
  - eexists. split; [reflexivity|].
    destruct (normalize_entries_kept dateutil_parse str_lower name
                (get_default (Source.category source) [])
                (isoformat (utcnow start)) kw clock (entries feed) 0)
      as (H1 & H2 & H3).
    cbn zeta in *. fold kw. rewrite H1, H2, H3. repeat split.
    rewrite <- (length_map url), H1, length_map. apply filter_length_le.
Qed.

Lemma fetch_rss_in_feed_order_witness :
  exists items,
    _fetch_rss SampleFeed.http_get SampleFeed.feedparser_parse
      SampleFeed.parse_plain SampleFeed.ascii_lower SampleFeed.noon
      (fun _ => SampleFeed.noon)
      (SampleFeed.source "https://feed.example/rss" None None)
    = Returned items /\
    map title items = [py "Ransomware attack hits hospital";
                       py "Phishing campaign targets bank"].
Proof.
  destruct (fetch_rss_in_feed_order SampleFeed.http_get
              SampleFeed.feedparser_parse SampleFeed.parse_plain
              SampleFeed.ascii_lower
              SampleFeed.noon (fun _ => SampleFeed.noon)
              (SampleFeed.source "https://feed.example/rss" None None)
              (py "https://feed.example/rss") (py "Feed")
              (SampleFeed.body "feed")
              (mkParsed false SampleFeed.ransomware_entries)
              eq_refl eq_refl eq_refl eq_refl) as (items & H & _ & Ht & _).
  exists items. split; [exact H | exact Ht].
Defined.

Lemma re_sub_tags_id (s : str) : no_tag s = true -> re_sub_tags s = s.
Proof.
  unfold re_sub_tags.
  induction s as [|c s IH]; cbn [re_sub_tags_from no_tag]; [reflexivity|].
  rewrite andb_true_iff, negb_true_iff. intros [H1 H2].
  rewrite H1. f_equal. now apply IH.
Qed.

Lemma lstrip_id (s : str) :
  (forall c t, s = c :: t -> isspace c = false) -> lstrip s = s.
Proof.
  destruct s as [|c s]; [reflexivity|]. intros H. cbn [lstrip].
  now rewrite (H c s eq_refl).
Qed.

Lemma strip_id (s : str) : trimmed s s -> strip s = s.
Proof.
  intros (_ & Hh & Hl). unfold strip. rewrite (lstrip_id s Hh).
  unfold rstrip. rewrite lstrip_id; [apply rev_involutive|].
  intros c t E. apply (Hl (rev t) c).
  rewrite <- (rev_involutive s), E. reflexivity.
Qed.

Lemma clean_summary_fixed (t : str) (n : nat) :
  no_tag t = true -> trimmed t t -> length t <= n ->
  _clean_summary (Some t) n = t.
Proof.
  intros Hn Ht Hl. rewrite clean_summary_any.
  rewrite (re_sub_tags_id t Hn), (strip_id t Ht), firstn_all2 by exact Hl.
  apply Nat.ltb_ge in Hl. rewrite Hl. apply app_nil_r.
Qed.

(** X13: text that holds no match of the tag pattern, has no
    whitespace around it and is not longer than the bound goes through
    [_clean_summary] unchanged. *)
Theorem clean_summary_keeps_plain_text (t : str) (n : nat) :
  ~ has_tag t -> trimmed t t -> length t <= n ->
  _clean_summary (Some t) n = t.
Proof.
  intros Hn. apply clean_summary_fixed. now apply no_tag_spec.
Qed.

Lemma clean_summary_keeps_plain_text_witness :
  _clean_summary (Some (py "7 > 2 and 3 < 5")) 300 = py "7 > 2 and 3 < 5".
Proof.
  apply clean_summary_keeps_plain_text.
  - apply no_tag_spec. reflexivity.
  - split; [|split].
    + exists [], []. repeat split; constructor.
    + intros c t [= <- _]. reflexivity.
    + intros t c E.
      change (py "7 > 2 and 3 < 5") with (py "7 > 2 and 3 < " ++ [53%N]) in E.
      apply app_inj_tail in E. destruct E as [_ <-]. reflexivity.
  - vm_compute. repeat constructor.
Defined.

Lemma firstn_head {A} (n : nat) (l : list A) (c : A) (t : list A) :
  firstn n l = c :: t -> exists t', l = c :: t'.
Proof.
  destruct n as [|n]; [discriminate|].
  destruct l as [|x l]; [discriminate|].
  cbn [firstn]. intros [= -> _]. now exists l.
Qed.

(** X14: [_clean_summary] is idempotent: cleaning a cleaned summary
    again, with the same bound, gives it back, the ellipsis of a
    truncated one included. *)
Theorem clean_summary_idempotent (text : option str) (n : nat) :
  _clean_summary (Some (_clean_summary text n)) n = _clean_summary text n.
Proof.
  destruct text as [t|]; [|reflexivity].
  pose proof (clean_summary_shape t n) as [_ Hnt].
  rewrite (clean_summary_any t n) in *.
  set (body := strip (re_sub_tags t)) in *.
  destruct (strip_self_trimmed (re_sub_tags t)) as (_ & Hh & Hl).
  fold body in Hh, Hl.
  destruct (n <? length body)%nat eqn:E.
  - apply Nat.ltb_lt in E.
    assert (Lf : length (firstn n body) = n)
      by (rewrite length_firstn; lia).
    rewrite clean_summary_any, (re_sub_tags_id _ Hnt), strip_id.
    + rewrite firstn_app, Lf, Nat.sub_diag, firstn_0, app_nil_r.
      rewrite firstn_all2 by lia.
      rewrite length_app, Lf. unfold ELLIPSIS at 1. cbn [length].
      assert (E' : (n <? n + 1)%nat = true) by (apply Nat.ltb_lt; lia).
      now rewrite E'.
    + split; [|split].
      * exists [], []. rewrite app_nil_r. repeat split; constructor.
      * intros c r Hc. destruct (firstn n body) as [|x f] eqn:F.
        -- injection Hc as <- _. reflexivity.
        -- injection Hc as <- _.
           destruct (firstn_head n body x f F) as (t' & Hb).
           now apply (Hh x t').
      * intros r c Hc. apply app_inj_tail in Hc. destruct Hc as [_ <-].
        reflexivity.
  - apply Nat.ltb_ge in E. rewrite app_nil_r in *.
    rewrite firstn_all2 in * by exact E.
    apply clean_summary_fixed; [exact Hnt | apply strip_self_trimmed | exact E].
Qed.


(** * The refresh *)

Lemma run_refresh_now_run (read_sources_file : outcome yaml)
    (http_get : str -> option (list Byte.byte))
    (feedparser_parse : list Byte.byte -> outcome parsed)
    (dateutil_parse : str -> option datetime) (str_lower : str -> str)
    (clocks : nat -> readings) (sources : list Source.t) (s : db) :
  _load_sources read_sources_file = Returned sources ->
  Forall named_unless_rss sources ->
  Scheduler.run_refresh_now read_sources_file http_get feedparser_parse
                            dateutil_parse str_lower clocks s =
  let items := contributions http_get feedparser_parse dateutil_parse
                             str_lower clocks 0 sources in
  (Returned (Scheduler.mkRefresh (py "ok") (fst (upsert_news_items items s))
                                 (Z.of_nat (length items))),
   snd (upsert_news_items items s)).
Proof.
  intros Hload Hnamed. unfold Scheduler.run_refresh_now.
  rewrite (fetch_all_feeds_run _ _ _ _ _ _ sources Hload Hnamed).
  unfold bind, ret. cbn zeta.
  now destruct (upsert_news_items _ s).
Qed.

(** X15: once the source list is loaded and every source of another
    type than rss has a name, a refresh, called directly or through
    POST /api/refresh, returns: its status is "ok", [total_fetched] is
    the number of items the sources gave, and [new_items] is the number
    of distinct urls, among the items that are written, that were not
    stored, between 0 and [total_fetched]; the table grows by that
    many rows. *)
Theorem refresh_report (read_sources_file : outcome yaml)
    (http_get : str -> option (list Byte.byte))
    (feedparser_parse : list Byte.byte -> outcome parsed)
    (dateutil_parse : str -> option datetime) (str_lower : str -> str)
    (clocks : nat -> readings) (sources : list Source.t) (s : db) :
  _load_sources read_sources_file = Returned sources ->
  Forall named_unless_rss sources ->
  let items := contributions http_get feedparser_parse dateutil_parse
                             str_lower clocks 0 sources in
  exists r,
    fst (Scheduler.api_refresh read_sources_file http_get feedparser_parse
                               dateutil_parse str_lower clocks s)
    = Returned r /\
    Scheduler.status r = py "ok" /\
    Scheduler.total_fetched r = Z.of_nat (length items) /\
    Scheduler.new_items r =
    Z.of_nat (length (new_urls (written items) (news_items s))) /\
    (0 <= Scheduler.new_items r <= Scheduler.total_fetched r)%Z /\
    Z.of_nat (length (news_items
                        (snd (Scheduler.api_refresh read_sources_file
                                http_get feedparser_parse dateutil_parse
                                str_lower clocks s)))) =
    (Z.of_nat (length (news_items s)) + Scheduler.new_items r)%Z.
Proof.
  intros Hload Hnamed items. unfold Scheduler.api_refresh.
  rewrite (run_refresh_now_run _ _ _ _ _ _ sources s Hload Hnamed).
  fold items. cbn [fst snd].
  eexists. split; [reflexivity|].
  cbn [Scheduler.status Scheduler.total_fetched Scheduler.new_items].
  rewrite upsert_count, upsert_table.
  pose proof (length_apply_new_urls (written items) (news_items s)) as L.
  pose proof (length_apply_bounds (written items) (news_items s)) as B.
  pose proof (filter_length_le bindable_item items) as F.
  unfold written in *.
  repeat split; lia.
Qed.

Lemma refresh_report_witness :
  exists r,
    fst (Scheduler.api_refresh (SampleFeed.sources_file SampleFeed.mixed)
           SampleFeed.http_get SampleFeed.feedparser_parse
           SampleFeed.parse_plain SampleFeed.ascii_lower SampleFeed.clocks
           (mkDb Sample.five []))
    = Returned r /\
    Scheduler.total_fetched r = 2%Z /\ Scheduler.new_items r = 1%Z.
Proof.
  destruct (refresh_report (SampleFeed.sources_file SampleFeed.mixed)
              SampleFeed.http_get SampleFeed.feedparser_parse
              SampleFeed.parse_plain SampleFeed.ascii_lower SampleFeed.clocks
              SampleFeed.mixed (mkDb Sample.five []) eq_refl)
    as (r & E & _ & T & N & _).
  - repeat constructor; intros H;
      first [vm_compute in H; discriminate H | vm_compute; discriminate].
  - exists r. split; [exact E|].
    split; [rewrite T | rewrite N]; vm_compute; reflexivity.
Defined.

Lemma digit_bindable (n : N) : is_surrogate (digit n) = false.
Proof.
  unfold is_surrogate, digit. apply andb_false_iff. left.
  apply N.leb_gt. pose proof (N.mod_lt n 10). lia.
Qed.

Lemma bindable_app (a b : str) : bindable (a ++ b) = bindable a && bindable b.
Proof. apply forallb_app. Qed.

Lemma zfill2_bindable (n : N) : bindable (zfill2 n) = true.
Proof.
  unfold zfill2, bindable. cbn [forallb]. now rewrite !digit_bindable.
Qed.

Lemma zfill4_bindable (n : N) : bindable (zfill4 n) = true.
Proof.
  unfold zfill4, bindable. cbn [forallb]. now rewrite !digit_bindable.
Qed.

Lemma zfill6_bindable (n : N) : bindable (zfill6 n) = true.
Proof.
  unfold zfill6, bindable. cbn [forallb]. now rewrite !digit_bindable.
Qed.

Lemma format_offset_bindable (off : Z) : bindable (format_offset off) = true.
Proof.
  unfold format_offset. cbn zeta.
  change (?s :: ?a ++ ?b) with ([s] ++ a ++ b).
  rewrite !bindable_app, !zfill2_bindable.
  destruct (off <? 0)%Z;
    (destruct (_ =? 0)%N;
     [reflexivity |
      change (58%N :: zfill2 ?x) with ([58%N] ++ zfill2 x);
      now rewrite bindable_app, zfill2_bindable]).
Qed.

Lemma isoformat_bindable (dt : datetime) : bindable (isoformat dt) = true.
Proof.
  unfold isoformat.
  rewrite !bindable_app, zfill4_bindable, !zfill2_bindable.
  destruct (tzinfo dt); [rewrite format_offset_bindable|];
    (destruct (microsecond dt =? 0)%N;
     [reflexivity |
      change (46%N :: zfill6 ?x) with ([46%N] ++ zfill6 x);
      now rewrite bindable_app, zfill6_bindable]).
Qed.

Lemma normalize_date_bindable (dateutil_parse : str -> option datetime)
    (now : datetime) (raw : option str) :
  bindable (_normalize_date dateutil_parse now raw) = true.
Proof.
  unfold _normalize_date.
  destruct raw as [r|]; [|apply isoformat_bindable].
  destruct (negb (truthy r)); [apply isoformat_bindable|].
  destruct (dateutil_parse r) as [dt|]; apply isoformat_bindable.
Qed.

Lemma normalize_entries_rows (dateutil_parse : str -> option datetime)
    (str_lower : str -> str) (nm cat f1 f2 kw : str)
    (c1 c2 : nat -> datetime) (es : list Entry.t) (k1 k2 : nat) :
  bindable f1 = bindable f2 ->
  Forall2 (fun a b => url a = url b /\ bindable_item a = bindable_item b)
    (normalize_entries dateutil_parse str_lower nm cat f1 kw c1 k1 es)
    (normalize_entries dateutil_parse str_lower nm cat f2 kw c2 k2 es).
Proof.
  intros F. revert k1 k2; induction es as [|e es IH]; intros k1 k2;
    cbn [normalize_entries]; [constructor|].
  rewrite !normalize_entry_eq. destruct (kept str_lower kw e); [|apply IH].
  constructor; [|apply IH]. split; [reflexivity|].
  unfold bindable_item.
  cbn [title url summary published_at source_name category fetched_at].
  now rewrite !normalize_date_bindable, F.
Qed.

Lemma contribution_rows (http_get : str -> option (list Byte.byte))
    (feedparser_parse : list Byte.byte -> outcome parsed)
    (dateutil_parse : str -> option datetime) (str_lower : str -> str)
    (clocks1 clocks2 : nat -> readings) (i j : nat) (source : Source.t) :
  Forall2 (fun a b => url a = url b /\ bindable_item a = bindable_item b)
    (contribution http_get feedparser_parse dateutil_parse str_lower clocks1 i
                  source)
    (contribution http_get feedparser_parse dateutil_parse str_lower clocks2 j
                  source).
Proof.
  unfold contribution, _fetch_rss.
  destruct (is_rss source); [|constructor].
  destruct (Source.url source) as [u|]; [|constructor].
  destruct (Source.name source) as [name|]; [|constructor].
  destruct (http_get u) as [raw|]; [|constructor].
  destruct (feedparser_parse raw) as [feed|exc]; [|constructor].
  destruct (bozo feed && (length (entries feed) =? 0)%nat); [constructor|].
  apply normalize_entries_rows. now rewrite !isoformat_bindable.
Qed.

Lemma contributions_rows (http_get : str -> option (list Byte.byte))
    (feedparser_parse : list Byte.byte -> outcome parsed)
    (dateutil_parse : str -> option datetime) (str_lower : str -> str)
    (clocks1 clocks2 : nat -> readings) (sources : list Source.t) (i j : nat) :
  Forall2 (fun a b => url a = url b /\ bindable_item a = bindable_item b)
    (contributions http_get feedparser_parse dateutil_parse str_lower clocks1
                   i sources)
    (contributions http_get feedparser_parse dateutil_parse str_lower clocks2
                   j sources).
Proof.
  revert i j; induction sources as [|src sources IH]; intros i j;
    cbn [contributions]; [constructor|].
  apply Forall2_app; [apply contribution_rows | apply IH].
Qed.

Lemma written_urls (a b : list NewsItem) :
  Forall2 (fun a b => url a = url b /\ bindable_item a = bindable_item b)
          a b ->
  map url (written a) = map url (written b).
Proof.
  unfold written. induction 1 as [|x y a b [Hu Hb] _ IH]; [reflexivity|].
  cbn [filter]. rewrite Hb. destruct (bindable_item y); [|exact IH].
  cbn [map]. now rewrite Hu, IH.
Qed.

(** X16: once the source list is loaded and every source of another
    type than rss has a name, a second refresh over feeds that answer
    as before inserts nothing, whatever the clock shows: its
    [new_items] is 0 and its [total_fetched] is that of the first. *)
Theorem refresh_again_inserts_nothing (read_sources_file : outcome yaml)
    (http_get : str -> option (list Byte.byte))
    (feedparser_parse : list Byte.byte -> outcome parsed)
    (dateutil_parse : str -> option datetime) (str_lower : str -> str)
    (clocks1 clocks2 : nat -> readings) (sources : list Source.t) (s : db) :
  _load_sources read_sources_file = Returned sources ->
  Forall named_unless_rss sources ->
  let first := Scheduler.run_refresh_now read_sources_file http_get
                 feedparser_parse dateutil_parse str_lower clocks1 s in
  let second := Scheduler.run_refresh_now read_sources_file http_get
                  feedparser_parse dateutil_parse str_lower clocks2
                  (snd first) in
  exists r1 r2,
    fst first = Returned r1 /\ fst second = Returned r2 /\
    Scheduler.new_items r2 = 0%Z /\
    Scheduler.total_fetched r2 = Scheduler.total_fetched r1.
Proof.
  intros Hload Hnamed first second. subst first second.
  rewrite !(run_refresh_now_run _ _ _ _ _ _ sources _ Hload Hnamed).
  cbn [fst snd].
  set (items1 := contributions _ _ _ _ clocks1 0 sources).
  set (items2 := contributions _ _ _ _ clocks2 0 sources).
  assert (R : Forall2 (fun a b => url a = url b /\
                                  bindable_item a = bindable_item b)
                      items2 items1)
    by apply contributions_rows.
  eexists _, _. split; [reflexivity|]. split; [reflexivity|].
  cbn [Scheduler.new_items Scheduler.total_fetched]. split.
  - rewrite upsert_count, upsert_table.
    rewrite length_apply_present; [lia|].
    intros i Hi.
    assert (Hu : In (url i) (map url (written items1)))
      by (rewrite <- (written_urls _ _ R); now apply in_map).
    apply in_map_iff in Hu. destruct Hu as (i1 & <- & Hi1).
    now apply urls_apply_all.
  - now rewrite (Forall2_length R).
Qed.

Lemma refresh_again_inserts_nothing_witness :
  exists r1 r2,
    fst (Scheduler.run_refresh_now (SampleFeed.sources_file SampleFeed.mixed)
           SampleFeed.http_get SampleFeed.feedparser_parse
           SampleFeed.parse_plain SampleFeed.ascii_lower SampleFeed.clocks
           empty_db) = Returned r1 /\
    fst (Scheduler.run_refresh_now (SampleFeed.sources_file SampleFeed.mixed)
           SampleFeed.http_get SampleFeed.feedparser_parse
           SampleFeed.parse_plain SampleFeed.ascii_lower
           (fun _ => mkReadings (mkDatetime 2025 1 1 9 30 0 0 None)
                                (fun _ => mkDatetime 2025 1 1 9 30 1 0 None))
           (snd (Scheduler.run_refresh_now
                   (SampleFeed.sources_file SampleFeed.mixed)
                   SampleFeed.http_get SampleFeed.feedparser_parse
                   SampleFeed.parse_plain SampleFeed.ascii_lower
                   SampleFeed.clocks empty_db))) = Returned r2 /\
    Scheduler.new_items r2 = 0%Z /\
    Scheduler.total_fetched r2 = Scheduler.total_fetched r1.
Proof.
  apply (refresh_again_inserts_nothing
           (SampleFeed.sources_file SampleFeed.mixed)
           SampleFeed.http_get SampleFeed.feedparser_parse
           SampleFeed.parse_plain SampleFeed.ascii_lower SampleFeed.clocks
           (fun _ => mkReadings (mkDatetime 2025 1 1 9 30 0 0 None)
                                (fun _ => mkDatetime 2025 1 1 9 30 1 0 None))
           SampleFeed.mixed empty_db eq_refl).
  repeat constructor; intros H;
    first [vm_compute in H; discriminate H | vm_compute; discriminate].
Defined.

Lemma contributions_nothing (http_get : str -> option (list Byte.byte))
    (feedparser_parse : list Byte.byte -> outcome parsed)
    (dateutil_parse : str -> option datetime) (str_lower : str -> str)
    (clocks : nat -> readings) (sources : list Source.t) (i : nat) :
  Forall (fun src => is_rss src = false \/ request_fails http_get src)
         sources ->
  contributions http_get feedparser_parse dateutil_parse str_lower clocks i
                sources = [].
Proof.
  intros H. revert i; induction H as [|src sources Hs _ IH]; intros i;
    cbn [contributions]; [reflexivity|].
  rewrite IH, app_nil_r. unfold contribution, _fetch_rss, request_fails in *.
  destruct Hs as [-> | Hs]; [reflexivity|].
  destruct (is_rss src); [|reflexivity].
  destruct (Source.url src) as [u|]; [|reflexivity].
  destruct (Source.name src) as [name|]; [|reflexivity].
  now rewrite Hs.
Qed.

(** X17: once the source list is loaded and every source of another
    type than rss has a name, when every source is of another type
    than rss or fails to answer, a refresh reports 0 fetched and 0 new
    and makes no access to the storage at all. *)
Theorem refresh_without_items (read_sources_file : outcome yaml)
    (http_get : str -> option (list Byte.byte))
    (feedparser_parse : list Byte.byte -> outcome parsed)
    (dateutil_parse : str -> option datetime) (str_lower : str -> str)
    (clocks : nat -> readings) (sources : list Source.t) (s : db) :
  _load_sources read_sources_file = Returned sources ->
  Forall named_unless_rss sources ->
  Forall (fun src => is_rss src = false \/ request_fails http_get src)
         sources ->
  Scheduler.run_refresh_now read_sources_file http_get feedparser_parse
                            dateutil_parse str_lower clocks s =
  (Returned (Scheduler.mkRefresh (py "ok") 0 0), s).
Proof.
  intros Hload Hnamed H.
  rewrite (run_refresh_now_run _ _ _ _ _ _ sources s Hload Hnamed).
  now rewrite (contributions_nothing _ _ _ _ _ _ 0 H).
Qed.

Lemma refresh_without_items_witness :
  Scheduler.run_refresh_now
    (SampleFeed.sources_file
       [SampleFeed.source "https://down.example/rss" None None;
        SampleFeed.source "https://feed.example/rss" None
                          (Some (py "scraper"))])
    SampleFeed.http_get SampleFeed.feedparser_parse
    SampleFeed.parse_plain SampleFeed.ascii_lower SampleFeed.clocks
    (mkDb Sample.five [Connect]) =
  (Returned (Scheduler.mkRefresh (py "ok") 0 0), mkDb Sample.five [Connect]).
Proof.
  apply (refresh_without_items _ _ _ _ _ _
           [SampleFeed.source "https://down.example/rss" None None;
            SampleFeed.source "https://feed.example/rss" None
                              (Some (py "scraper"))]).
  - reflexivity.
  - repeat constructor; intros H;
      first [vm_compute in H; discriminate H | vm_compute; discriminate].
  - constructor; [right; reflexivity|]. constructor; [now left|]. constructor.
Defined.

(** X18: once the source list is loaded and every source of another
    type than rss has a name, after the hourly job the url of every
    item the sources gave whose text can be bound is stored, and a
    table that held no url twice still holds none twice. *)
Theorem refresh_job_stores (read_sources_file : outcome yaml)
    (http_get : str -> option (list Byte.byte))
    (feedparser_parse : list Byte.byte -> outcome parsed)
    (dateutil_parse : str -> option datetime) (str_lower : str -> str)
    (clocks : nat -> readings) (sources : list Source.t) (s : db) :
  _load_sources read_sources_file = Returned sources ->
  Forall named_unless_rss sources ->
  let s' := snd (Scheduler._refresh_job read_sources_file http_get
                   feedparser_parse dateutil_parse str_lower clocks s) in
  (forall item,
      In item (contributions http_get feedparser_parse dateutil_parse
                             str_lower clocks 0 sources) ->
      bindable_item item = true ->
      find_url (url item) (news_items s') <> None) /\
  (NoDup (map url (news_items s)) -> NoDup (map url (news_items s'))).
Proof.
  intros Hload Hnamed s'. subst s'. unfold Scheduler._refresh_job.
  rewrite (fetch_all_feeds_run _ _ _ _ _ _ sources Hload Hnamed).
  unfold bind, ret.
  set (items := contributions _ _ _ _ clocks 0 sources).
  assert (E : snd (let (_, s1) := upsert_news_items items s in
                   (@Returned unit tt, s1)) = snd (upsert_news_items items s))
    by now destruct (upsert_news_items items s).
  rewrite E, upsert_table. split.
  - intros item Hi Hb Hn. apply find_url_None in Hn. apply Hn.
    apply urls_apply_all. apply filter_In. now split.
  - apply NoDup_apply.
Qed.

Lemma refresh_job_stores_witness :
  find_url (py "https://n.example/a")
    (news_items
       (snd (Scheduler._refresh_job
               (SampleFeed.sources_file SampleFeed.mixed)
               SampleFeed.http_get SampleFeed.feedparser_parse
               SampleFeed.parse_plain SampleFeed.ascii_lower
               SampleFeed.clocks (mkDb Sample.five [])))) <> None /\
  NoDup (map url
    (news_items
       (snd (Scheduler._refresh_job
               (SampleFeed.sources_file SampleFeed.mixed)
               SampleFeed.http_get SampleFeed.feedparser_parse
               SampleFeed.parse_plain SampleFeed.ascii_lower
               SampleFeed.clocks (mkDb Sample.five []))))).
Proof.
  assert (Hnamed : Forall named_unless_rss SampleFeed.mixed).
  { repeat constructor; intros H;
      first [vm_compute in H; discriminate H | vm_compute; discriminate]. }
  pose proof (refresh_job_stores (SampleFeed.sources_file SampleFeed.mixed)
                SampleFeed.http_get SampleFeed.feedparser_parse
                SampleFeed.parse_plain SampleFeed.ascii_lower
                SampleFeed.clocks SampleFeed.mixed (mkDb Sample.five [])
                eq_refl Hnamed) as [Hstored Hnodup].
  split.
  - apply (Hstored
             (mkItem (py "Phishing campaign targets bank")
                     (py "https://n.example/a") (py "Customers warned.")
                     (py "2024-06-01T12:00:00+00:00") (py "Feed") (py "news")
                     (py "2024-06-01T12:00:00+00:00"))).
    + vm_compute. right. left. reflexivity.
    + reflexivity.
  - apply Hnodup. vm_compute.
    repeat (constructor; [simpl; intuition discriminate|]). constructor.
Defined.

(** X19: what is upserted is listed: right after a call, when the
    number of rows fits an SQLite INTEGER, the page of as many rows as
    the count says, from offset 0, is returned, is the whole table in
    another order, and holds a row for the url of every item of the
    batch whose text can be bound. *)
Theorem listing_holds_upserted (items : list NewsItem) (s : db) :
  let s' := snd (upsert_news_items items s) in
  let total := fst (get_total_count s') in
  (total <= INT64_MAX)%Z ->
  exists page,
    fst (get_news total 0 (snd (get_total_count s'))) = Returned page /\
    Permutation page (news_items s') /\
    forall item, In item items -> bindable_item item = true ->
                 exists r, In r page /\ url r = url item.
Proof.
  intros s' total. subst total.
  rewrite get_total_count_run. cbn [fst snd]. intros Hfit.
  rewrite get_news_run
    by (apply fits_int64_spec; unfold INT64_MAX in *; lia).
  cbn [fst snd news_items].
  eexists. split; [reflexivity|].
  assert (P : Permutation
                (limit_offset (Z.of_nat (length (news_items s'))) 0
                              (ordered (news_items s')))
                (news_items s')).
  { unfold limit_offset.
    assert (E : (Z.of_nat (length (news_items s')) <? 0)%Z = false)
      by (apply Z.ltb_ge; lia).
    rewrite E, Nat2Z.id. cbn [Z.to_nat skipn].
    rewrite firstn_all2; [apply ordered_perm|].
    now rewrite (Permutation_length (ordered_perm (news_items s'))). }
  split; [exact P|].
  intros item Hi Hb.
  assert (Hu : In (url item) (map url (news_items s'))).
  { subst s'. rewrite upsert_table. apply urls_apply_all.
    apply filter_In. now split. }
  apply in_map_iff in Hu. destruct Hu as (r & Hr & Hin).
  exists r. split; [|exact Hr].
  now apply (Permutation_in r (Permutation_sym P)).
Qed.

Lemma listing_holds_upserted_witness :
  exists page,
    fst (get_news
           (fst (get_total_count
                   (snd (upsert_news_items
                           [Sample.first_write; Sample.unbindable;
                            Sample.other_url]
                           (mkDb Sample.five [])))))
           0
           (snd (get_total_count
                   (snd (upsert_news_items
                           [Sample.first_write; Sample.unbindable;
                            Sample.other_url]
                           (mkDb Sample.five []))))))
    = Returned page /\
    exists r, In r page /\ url r = url Sample.other_url.
Proof.
  destruct (listing_holds_upserted
              [Sample.first_write; Sample.unbindable; Sample.other_url]
              (mkDb Sample.five []))
    as (page & E & _ & H).
  - vm_compute. discriminate.
  - exists page. split; [exact E|].
    apply (H Sample.other_url); [right; right; now left | reflexivity].
Defined.

Lemma make_tasks_unnamed (http_get : str -> option (list Byte.byte))
    (feedparser_parse : list Byte.byte -> outcome parsed)
    (dateutil_parse : str -> option datetime) (str_lower : str -> str)
    (clocks : nat -> readings) (before : list Source.t) (src : Source.t)
    (after : list Source.t) (i : nat) :
  is_rss src = false -> Source.name src = None ->
  make_tasks http_get feedparser_parse dateutil_parse str_lower clocks i
             (before ++ src :: after) = Raised (py "KeyError").
Proof.
  intros Ht Hn. revert i; induction before as [|b before IH]; intros i;
    cbn [app make_tasks].
  - unfold is_rss in Ht. rewrite Ht, Hn.
    now destruct (str_eqb _ (py "scraper")).
  - rewrite IH.
    destruct (str_eqb _ (py "rss")); [reflexivity|].
    destruct (str_eqb _ (py "scraper"));
      now destruct (Source.name b).
Qed.

(** X23: a source of another type than rss that has no name stops the
    whole fetch: the warning that would name it raises KeyError, so
    [fetch_all_feeds] raises it whatever the other sources are, and a
    refresh raises it too and leaves the storage untouched, without
    any access. *)
Theorem refresh_raises_on_unnamed_source (read_sources_file : outcome yaml)
    (http_get : str -> option (list Byte.byte))
    (feedparser_parse : list Byte.byte -> outcome parsed)
    (dateutil_parse : str -> option datetime) (str_lower : str -> str)
    (clocks : nat -> readings) (before : list Source.t) (src : Source.t)
    (after : list Source.t) (s : db) :
  _load_sources read_sources_file = Returned (before ++ src :: after) ->
  is_rss src = false -> Source.name src = None ->
  fetch_all_feeds read_sources_file http_get feedparser_parse dateutil_parse
                  str_lower clocks = Raised (py "KeyError") /\
  Scheduler.run_refresh_now read_sources_file http_get feedparser_parse
                            dateutil_parse str_lower clocks s
  = (Raised (py "KeyError"), s) /\
  Scheduler._refresh_job read_sources_file http_get feedparser_parse
                         dateutil_parse str_lower clocks s
  = (Raised (py "KeyError"), s).
Proof.
  intros Hload Ht Hn.
  assert (F : fetch_all_feeds read_sources_file http_get feedparser_parse
                dateutil_parse str_lower clocks = Raised (py "KeyError")).
  { unfold fetch_all_feeds. rewrite Hload.
    now rewrite (make_tasks_unnamed _ _ _ _ _ before src after 0 Ht Hn). }
  unfold Scheduler.run_refresh_now, Scheduler._refresh_job.
  rewrite F. repeat split.
Qed.

Lemma refresh_raises_on_unnamed_source_witness :
  Scheduler.run_refresh_now
    (SampleFeed.sources_file
       [SampleFeed.source "https://feed.example/rss" None None;
        SampleFeed.nameless "https://feed.example/rss" (Some (py "scraper"));
        SampleFeed.source "https://feed.example/rss" None None])
    SampleFeed.http_get SampleFeed.feedparser_parse
    SampleFeed.parse_plain SampleFeed.ascii_lower SampleFeed.clocks
    (mkDb Sample.five [])
  = (Raised (py "KeyError"), mkDb Sample.five []).
Proof.
  refine (proj1 (proj2 (refresh_raises_on_unnamed_source
            (SampleFeed.sources_file
               [SampleFeed.source "https://feed.example/rss" None None;
                SampleFeed.nameless "https://feed.example/rss"
                                    (Some (py "scraper"));
                SampleFeed.source "https://feed.example/rss" None None])
            SampleFeed.http_get SampleFeed.feedparser_parse
            SampleFeed.parse_plain SampleFeed.ascii_lower SampleFeed.clocks
            [SampleFeed.source "https://feed.example/rss" None None]
            (SampleFeed.nameless "https://feed.example/rss"
                                 (Some (py "scraper")))
            [SampleFeed.source "https://feed.example/rss" None None]
            (mkDb Sample.five []) eq_refl eq_refl eq_refl))).
Defined.

(** * Text order and time order *)

Lemma str_compare_app (x y a b : str) :
  length x = length y ->
  str_compare (x ++ a) (y ++ b) = lex (str_compare x y) (str_compare a b).
Proof.
  revert y; induction x as [|c x IH]; intros [|d y] H; try discriminate.
  - reflexivity.
  - cbn [app str_compare]. injection H as H.
    destruct (N.compare c d); [now apply IH | reflexivity | reflexivity].
Qed.

Lemma lex_Eq_r (c : comparison) : lex c Eq = c.
Proof. now destruct c. Qed.

Lemma compare_divmod (n m : N) :
  lex (n / 10 ?= m / 10)%N (n mod 10 ?= m mod 10)%N = (n ?= m)%N.
Proof.
  pose proof (N.div_mod n 10 ltac:(discriminate)) as Hn.
  pose proof (N.div_mod m 10 ltac:(discriminate)) as Hm.
  pose proof (N.mod_lt n 10 ltac:(discriminate)) as Ln.
  pose proof (N.mod_lt m 10 ltac:(discriminate)) as Lm.
  symmetry.
  revert Hn Hm Ln Lm.
  generalize (n / 10)%N (m / 10)%N (n mod 10)%N (m mod 10)%N.
  intros qn qm rn rm Hn Hm Ln Lm.
  destruct (N.compare_spec qn qm) as [E|E|E]; cbn [lex].
  - destruct (N.compare_spec rn rm) as [F|F|F].
    + apply N.compare_eq_iff. lia.
    + apply N.compare_lt_iff. lia.
    + apply N.compare_gt_iff. lia.
  - apply N.compare_lt_iff. lia.
  - apply N.compare_gt_iff. lia.
Qed.

Lemma digit_compare (n m : N) :
  (digit n ?= digit m)%N = (n mod 10 ?= m mod 10)%N.
Proof.
  unfold digit. generalize (n mod 10)%N (m mod 10)%N. intros a b.
  destruct (N.compare_spec a b) as [E|E|E].
  - apply N.compare_eq_iff. lia.
  - apply N.compare_lt_iff. lia.
  - apply N.compare_gt_iff. lia.
Qed.

Lemma length_zdigits (k : nat) (n : N) : length (zdigits k n) = k.
Proof.
  revert n; induction k as [|k IH]; intros n; cbn [zdigits]; [reflexivity|].
  rewrite length_app, IH. cbn [length]. lia.
Qed.

(** Zero-padded numbers of one width compare as text the way they
    compare as numbers. *)
Lemma zdigits_compare (k : nat) (n m : N) :
  (n < 10 ^ N.of_nat k)%N -> (m < 10 ^ N.of_nat k)%N ->
  str_compare (zdigits k n) (zdigits k m) = (n ?= m)%N.
Proof.
  revert n m; induction k as [|k IH]; intros n m Hn Hm.
  - cbn in Hn, Hm. assert (n = 0%N) by lia. assert (m = 0%N) by lia.
    subst. reflexivity.
  - cbn [zdigits].
    rewrite str_compare_app by now rewrite !length_zdigits.
    rewrite Nat2N.inj_succ, N.pow_succ_r' in Hn, Hm.
    rewrite IH.
    + cbn [str_compare]. rewrite digit_compare.
      rewrite <- (compare_divmod n m). f_equal.
      now destruct (n mod 10 ?= m mod 10)%N.
    + apply N.Div0.div_lt_upper_bound. lia.
    + apply N.Div0.div_lt_upper_bound. lia.
Qed.

Lemma zfill4_zdigits (n : N) : zfill4 n = zdigits 4 n.
Proof.
  unfold zfill4. cbn [zdigits app].
  rewrite !N.Div0.div_div. reflexivity.
Qed.

Lemma zfill6_zdigits (n : N) : zfill6 n = zdigits 6 n.
Proof.
  unfold zfill6. cbn [zdigits app].
  rewrite !N.Div0.div_div. reflexivity.
Qed.

Lemma micro_compare (ua ub : N) (tz : str) :
  (ua < 10 ^ 6)%N -> (ub < 10 ^ 6)%N ->
  str_compare
    ((if (ua =? 0)%N then [] else 46%N :: zfill6 ua) ++ 43%N :: tz)
    ((if (ub =? 0)%N then [] else 46%N :: zfill6 ub) ++ 43%N :: tz)
  = (ua ?= ub)%N.
Proof.
  intros Ha Hb.
  assert (R : str_compare (43%N :: tz) (43%N :: tz) = Eq)
    by now apply str_compare_eq.
  destruct (N.eqb_spec ua 0) as [Ea|Ea]; destruct (N.eqb_spec ub 0) as [Eb|Eb];
    subst.
  - exact R.
  - cbn [app str_compare]. change (43 ?= 46)%N with Lt.
    symmetry. apply N.compare_lt_iff. lia.
  - cbn [app str_compare]. change (46 ?= 43)%N with Gt.
    symmetry. apply N.compare_gt_iff. lia.
  - cbn [app str_compare]. change (46 ?= 46)%N with Eq.
    rewrite !zfill6_zdigits.
    rewrite str_compare_app by now rewrite !length_zdigits.
    rewrite R, lex_Eq_r. now apply zdigits_compare.
Qed.

Lemma sep_compare (c : N) (a b : str) :
  str_compare ([c] ++ a) ([c] ++ b) = str_compare a b.
Proof. cbn [app str_compare]. now rewrite N.compare_refl. Qed.

(** X20: the text order of two [fetched_at] values is the time order
    of the clock readings they were printed from, and so, between two
    rows with one [published_at], the row fetched later is listed
    first. *)
Theorem fetched_at_order_is_time_order (a b : datetime) :
  in_range a -> in_range b ->
  str_compare (isoformat (utcnow a)) (isoformat (utcnow b))
  = datetime_compare a b /\
  forall i1 i2,
    published_at i1 = published_at i2 ->
    fetched_at i1 = isoformat (utcnow a) ->
    fetched_at i2 = isoformat (utcnow b) ->
    (order_by i1 i2 = true <-> datetime_compare a b <> Lt).
Proof.
  intros (Ya & Ma & Da & Ha & Ia & Sa & Ua) (Yb & Mb & Db & Hb & Ib & Sb & Ub).
  assert (E : str_compare (isoformat (utcnow a)) (isoformat (utcnow b))
              = datetime_compare a b).
  { unfold isoformat, utcnow, replace_tzinfo_utc, datetime_compare.
    cbn [year month day hour minute second microsecond tzinfo].
    change (format_offset 0) with (43%N :: py "00:00").
    rewrite <- !app_assoc.
    rewrite !zfill4_zdigits.
    repeat match goal with
           | |- context [zfill2 ?n] => change (zfill2 n) with (zdigits 2 n)
           end.
    repeat first
      [ rewrite sep_compare
      | rewrite str_compare_app by (rewrite !length_zdigits; reflexivity) ].
    rewrite micro_compare by (cbn; lia).
    rewrite !zdigits_compare by (cbn; lia).
    reflexivity. }
  split; [exact E|].
  intros i1 i2 Hp H1 H2. unfold order_by.
  rewrite Hp, H1, H2, E.
  assert (Hr : str_compare (published_at i2) (published_at i2) = Eq)
    by now apply str_compare_eq.
  rewrite Hr. destruct (datetime_compare a b); split; congruence.
Qed.

Lemma fetched_at_order_is_time_order_witness :
  str_compare (isoformat (utcnow (mkDatetime 2024 6 1 12 0 0 0 None)))
              (isoformat (utcnow (mkDatetime 2024 6 1 12 0 0 250000 None)))
  = Lt.
Proof.
  refine (eq_trans (proj1 (fetched_at_order_is_time_order
            (mkDatetime 2024 6 1 12 0 0 0 None)
            (mkDatetime 2024 6 1 12 0 0 250000 None) _ _)) eq_refl);
    unfold in_range; cbn; lia.
Defined.
